(** * Continuous-action cart-pole environment

    A shallow embedding of [env/cartpole_continuous.py]
    (class [CartPoleContinuousEnv]) and the properties of its dynamics
    step, its episode controller and its reset.

    Numbers.  The program computes with numpy [float64] values.  Following
    section 4.1 of the specification ("real-valued" inputs, "total functions
    over real inputs") they are modelled as mathematical reals: rounding,
    infinities and NaN are outside the model.  [np.pi] is [PI], [np.sin] and
    [np.cos] are [sin] and [cos].

    Objects.  The environment object is the record [Env]; a method that
    assigns to [self] returns the updated record.  A Python exception is the
    [Raise] case of [result]; the module-level logger is the list of messages
    a call emits.  [_seed] and [_render] take no part in the dynamics and are
    not embedded; the generator and the viewer they manage are kept as
    attributes of the object. *)

From Stdlib Require Import Reals Lra Lia List Bool Arith String.
Import ListNotations.

Open Scope R_scope.

(** ** Comparisons of numbers as booleans *)

Definition Rltb (a b : R) : bool := if Rlt_dec a b then true else false.
Definition Rleb (a b : R) : bool := if Rle_dec a b then true else false.
Definition Rgtb (a b : R) : bool := Rltb b a.
Definition Rgeb (a b : R) : bool := Rleb b a.

(** ** Exceptions *)

Inductive exn : Type :=
| ValueError   (* shape mismatch, unpacking of the wrong number of values *)
| IndexError.  (* index out of range *)

Inductive result (A : Type) : Type :=
| Ok (a : A)
| Raise (e : exn).

Arguments Ok {A} a.
Arguments Raise {A} e.

Definition bind {A B : Type} (m : result A) (k : A -> result B) : result B :=
  match m with
  | Ok a => k a
  | Raise e => Raise e
  end.

Notation "x <- m ;; k" := (bind m (fun x => k))
  (at level 61, m at next level, right associativity).

(** ** Arrays *)

(** A one-dimensional [ndarray] is the list of its entries, a two-dimensional
    one the list of its rows (all of the same length). *)
Definition array : Type := list R.
Definition matrix : Type := list array.

Definition ncols (n : nat) (A : matrix) : bool :=
  forallb (fun row => Nat.eqb (List.length row) n) A.

Definition dot (a v : array) : R :=
  fold_right Rplus 0 (map (fun p => fst p * snd p) (combine a v)).

(** [A @ v] for a two-dimensional [A] and a one-dimensional [v]: numpy raises
    [ValueError] unless the number of columns of [A] is the length of [v]. *)
Definition matmul (A : matrix) (v : array) : result array :=
  if ncols (List.length v) A then Ok (map (fun row => dot row v) A)
  else Raise ValueError.

(** [H.reshape(4, 1)]: a column of four rows; [ValueError] unless [H] has four
    entries. *)
Definition reshape_4_1 (H : array) : result matrix :=
  if Nat.eqb (List.length H) 4 then Ok (map (fun h => [h]) H)
  else Raise ValueError.

(** [np.concatenate([G, H], axis=1)]: the rows of [G] extended by the rows of
    [H]; [ValueError] unless both have the same number of rows. *)
Definition concatenate_axis1 (G H : matrix) : result matrix :=
  if Nat.eqb (List.length G) (List.length H)
  then Ok (map (fun p => fst p ++ snd p) (combine G H))
  else Raise ValueError.

(** ** The environment object *)

(** [spaces.Box]: the lower and the upper bound of a box. *)
Record Box : Type := mkBox { low : array; high : array }.

(** The random generator made by [seeding.np_random] and the viewer made by
    the rendering library are external: only their identity matters here. *)
Definition RandomState : Type := nat.
Definition Viewer : Type := nat.

(** The empty diagnostic dictionary returned by a step. *)
Definition dict : Type := list (string * string).

Record Env : Type := mkEnv {
  gravity : R;
  masscart : R;
  masspole : R;
  total_mass : R;
  length : R;
  polemass_length : R;
  max_force : R;
  tau : R;
  b : R;
  I : R;
  F_t : matrix;
  theta_threshold_radians : R;
  x_threshold : R;
  action_space : Box;
  observation_space : Box;
  np_random : RandomState;
  viewer : option Viewer;
  state : option array;
  steps_beyond_done : option nat
}.

(** [np.finfo(np.float32).max] *)
Definition float32_max : R := (2 - / 2 ^ 23) * 2 ^ 127.

(** [__init__]: [G] and [H] are the arrays read from [G.txt] and [H.txt],
    [rng] the generator returned by [seeding.np_random]. *)
Definition __init__ (G : matrix) (H : array) (rng : RandomState) : result Env :=
  let gravity := 9.8 in
  let masscart := 0.5 in
  let masspole := 0.1 in
  let total_mass := masspole + masscart in
  let length := 0.3 in
  let polemass_length := masspole * length in
  let max_force := 20.0 in
  let tau := 0.005 in
  let b := 0.1 in
  let I := 0.012 in
  H <- reshape_4_1 H ;;
  F_t <- concatenate_axis1 G H ;;
  let theta_threshold_radians := 12 * 2 * PI / 360 in
  let x_threshold := 2.4 in
  let high := [x_threshold * 2; float32_max;
               theta_threshold_radians * 2; float32_max] in
  Ok {| gravity := gravity; masscart := masscart; masspole := masspole;
        total_mass := total_mass; length := length;
        polemass_length := polemass_length; max_force := max_force;
        tau := tau; b := b; I := I; F_t := F_t;
        theta_threshold_radians := theta_threshold_radians;
        x_threshold := x_threshold;
        action_space := mkBox [- max_force] [max_force];
        observation_space := mkBox (map Ropp high) high;
        np_random := rng;
        viewer := None;
        state := None;
        steps_beyond_done := None |}.

(** Assignments to the two attributes the methods write. *)
Definition set_state (self : Env) (s : option array) : Env :=
  {| gravity := gravity self; masscart := masscart self;
     masspole := masspole self; total_mass := total_mass self;
     length := length self; polemass_length := polemass_length self;
     max_force := max_force self; tau := tau self; b := b self; I := I self;
     F_t := F_t self;
     theta_threshold_radians := theta_threshold_radians self;
     x_threshold := x_threshold self;
     action_space := action_space self;
     observation_space := observation_space self;
     np_random := np_random self;
     viewer := viewer self;
     state := s;
     steps_beyond_done := steps_beyond_done self |}.

Definition set_steps_beyond_done (self : Env) (c : option nat) : Env :=
  {| gravity := gravity self; masscart := masscart self;
     masspole := masspole self; total_mass := total_mass self;
     length := length self; polemass_length := polemass_length self;
     max_force := max_force self; tau := tau self; b := b self; I := I self;
     F_t := F_t self;
     theta_threshold_radians := theta_threshold_radians self;
     x_threshold := x_threshold self;
     action_space := action_space self;
     observation_space := observation_space self;
     np_random := np_random self;
     viewer := viewer self;
     state := state self;
     steps_beyond_done := c |}.

(** ** The dynamics step *)

(** [_state_eq(st, u)].  The product [F_t @ states] is evaluated first (and
    raises on a shape mismatch); its value is bound and never read. *)
Definition _state_eq (self : Env) (st u : array) : result array :=
  let states := st ++ u in
  result <- matmul (F_t self) states ;;
  match st with
  | [x; x_dot; theta; theta_dot] =>
      let pre_theta := theta in
      match u with
      | [] => Raise IndexError
      | u0 :: _ =>
          let force := - u0 in
          let costheta := cos theta in
          let sintheta := sin theta in
          let temp :=
            (force + polemass_length self * theta_dot * theta_dot * sintheta
             - b self * x_dot) / total_mass self in
          let thetaacc :=
            (gravity self * sintheta - costheta * temp)
            / (I self / masspole self + length self
               - masspole self * costheta ^ 2 / total_mass self) in
          let xacc :=
            temp - polemass_length self * thetaacc * costheta
                   / total_mass self in
          let x := x + tau self * x_dot in
          let x_dot := x_dot + tau self * xacc in
          let theta := theta + tau self * theta_dot in
          let theta_dot := theta_dot + tau self * thetaacc in
          let theta :=
            if Rltb pre_theta PI && Rgeb theta PI then theta - 2 * PI
            else if Rgtb pre_theta (- PI) && Rleb theta (- PI)
                 then theta + 2 * PI
                 else theta in
          Ok [x; x_dot; theta; theta_dot]
      end
  | _ => Raise ValueError
  end.

(** ** The episode controller *)

Definition step_warning : string :=
  "You are calling 'step()' even though this environment has already returned done = True. You should always call 'reset()' once you receive 'done = True' -- any further steps are undefined behavior.".

(** What a call of [_step] hands back: the updated object, the messages given
    to [logger.warning], and the returned tuple [(state, reward, done, {})]. *)
Definition step_return : Type := (Env * list string * (array * R * bool * dict))%type.

(** [_step(action)].  Before the first reset [self.state] is [None] and
    [np.concatenate] raises [ValueError]. *)
Definition _step (self : Env) (action : array) : result step_return :=
  match state self with
  | None => Raise ValueError
  | Some state =>
      new_state <- _state_eq self state action ;;
      let self := set_state self (Some new_state) in
      match new_state with
      | [x; x_dot; theta; theta_dot] =>
          let done :=
            Rltb x (- x_threshold self)
            || Rgtb x (x_threshold self)
            || Rltb theta (- theta_threshold_radians self)
            || Rgtb theta (theta_threshold_radians self) in
          if negb done then
            Ok (self, [], (new_state, 1.0, done, []))
          else
            match steps_beyond_done self with
            | None =>
                Ok (set_steps_beyond_done self (Some 0%nat), [],
                    (new_state, 1.0, done, []))
            | Some n =>
                let log := if Nat.eqb n 0 then [step_warning] else [] in
                Ok (set_steps_beyond_done self (Some (n + 1)%nat), log,
                    (new_state, 0.0, done, []))
            end
      | _ => Raise ValueError
      end
  end.

(** [_reset()] *)
Definition _reset (self : Env) : Env * array :=
  let self := set_state self (Some [-5.0; 0.0; 0.3 * PI; 0.0]) in
  let self := set_steps_beyond_done self None in
  (self,
   match state self with
   | Some s => s
   | None => []
   end).

(** ** Episodes *)

(** A caller's use of the object: a sequence of step and reset calls.  A step
    that raises leaves the object as it was. *)
Inductive call : Type :=
| step (action : array)
| reset.

Definition perform (self : Env) (c : call) : Env :=
  match c with
  | step action =>
      match _step self action with
      | Ok (self', _, _) => self'
      | Raise _ => self
      end
  | reset => fst (_reset self)
  end.

Definition history (self : Env) (calls : list call) : Env :=
  fold_left perform calls self.

(** The step calls of one episode, one per action, with what each returns; an
    exception ends the episode. *)
Fixpoint steps (self : Env) (actions : list array) : list step_return :=
  match actions with
  | [] => []
  | action :: rest =>
      match _step self action with
      | Ok (self', log, ret) => (self', log, ret) :: steps self' rest
      | Raise _ => []
      end
  end.

(** Projections of a step's return. *)
Definition env_of (r : step_return) : Env := fst (fst r).
Definition log_of (r : step_return) : list string := snd (fst r).
Definition state_of (r : step_return) : array := fst (fst (fst (snd r))).
Definition reward_of (r : step_return) : R := snd (fst (fst (snd r))).
Definition done_of (r : step_return) : bool := snd (fst (snd r)).
Definition info_of (r : step_return) : dict := snd (snd r).

(** The number of steps among [rs] that returned [done = True]. *)
Definition count_done (rs : list step_return) : nat :=
  List.length (filter done_of rs).

(** ** The algorithm of the specification, section 4.1 *)

(** [advance(state, action)] written from the six steps of section 4.1, with
    the configuration constants taken from [self]. *)
Definition advance_spec (self : Env) (x x_dot theta theta_dot action : R)
  : R * R * R * R :=
  let force := - action in
  let temp :=
    (force + polemass_length self * Rsqr theta_dot * sin theta
     - b self * x_dot) / total_mass self in
  let thetaacc :=
    (gravity self * sin theta - cos theta * temp)
    / (I self / masspole self + length self
       - masspole self * Rsqr (cos theta) / total_mass self) in
  let xacc :=
    temp - polemass_length self * thetaacc * cos theta / total_mass self in
  let x' := x + tau self * x_dot in
  let x_dot' := x_dot + tau self * xacc in
  let theta' := theta + tau self * theta_dot in
  let theta_dot' := theta_dot + tau self * thetaacc in
  let wrapped :=
    if Rltb theta PI && Rleb PI theta' then theta' - 2 * PI
    else if Rltb (- PI) theta && Rleb theta' (- PI) then theta' + 2 * PI
    else theta' in
  (x', x_dot', wrapped, theta_dot').

(** The configuration is usable by the dynamics step for a one-entry action
    when every row of [F_t] has five entries (G with four columns, H as the
    fifth). *)
Definition compatible (self : Env) : Prop := ncols 5 (F_t self) = true.

(** Two objects with the same configuration: everything set at construction
    except the generator, the viewer, the state and the counter. *)
Definition same_constants (e1 e2 : Env) : Prop :=
  gravity e1 = gravity e2 /\ masscart e1 = masscart e2 /\
  masspole e1 = masspole e2 /\ total_mass e1 = total_mass e2 /\
  length e1 = length e2 /\ polemass_length e1 = polemass_length e2 /\
  max_force e1 = max_force e2 /\ tau e1 = tau e2 /\ b e1 = b e2 /\
  I e1 = I e2 /\ F_t e1 = F_t e2 /\
  theta_threshold_radians e1 = theta_threshold_radians e2 /\
  x_threshold e1 = x_threshold e2 /\
  action_space e1 = action_space e2 /\
  observation_space e1 = observation_space e2.

(** An object whose every attribute but the state and the counter is that of
    [e1]. *)
Definition only_state_and_counter_written (e1 e2 : Env) : Prop :=
  e2 = set_steps_beyond_done (set_state e1 (state e2)) (steps_beyond_done e2).

(** The environment built by [__init__] from a zero [G] (4 x 4) and a zero
    [H], used for concrete runs. *)
Definition G0 : matrix := [[0;0;0;0]; [0;0;0;0]; [0;0;0;0]; [0;0;0;0]].
Definition H0 : array := [0;0;0;0].

Definition env0 : Env :=
  {| gravity := 9.8; masscart := 0.5; masspole := 0.1;
     total_mass := 0.1 + 0.5; length := 0.3;
     polemass_length := 0.1 * 0.3; max_force := 20.0;
     tau := 0.005; b := 0.1; I := 0.012;
     F_t := [[0;0;0;0;0]; [0;0;0;0;0]; [0;0;0;0;0]; [0;0;0;0;0]];
     theta_threshold_radians := 12 * 2 * PI / 360;
     x_threshold := 2.4;
     action_space := mkBox [- (20.0)] [20.0];
     observation_space :=
       mkBox [- (2.4 * 2); - float32_max; - (12 * 2 * PI / 360 * 2);
              - float32_max]
             [2.4 * 2; float32_max; 12 * 2 * PI / 360 * 2; float32_max];
     np_random := 0%nat;
     viewer := None;
     state := None;
     steps_beyond_done := None |}.

(** [self.F_t] replaced by another matrix, everything else kept. *)
Definition set_F_t (self : Env) (F : matrix) : Env :=
  {| gravity := gravity self; masscart := masscart self;
     masspole := masspole self; total_mass := total_mass self;
     length := length self; polemass_length := polemass_length self;
     max_force := max_force self; tau := tau self; b := b self; I := I self;
     F_t := F;
     theta_threshold_radians := theta_threshold_radians self;
     x_threshold := x_threshold self;
     action_space := action_space self;
     observation_space := observation_space self;
     np_random := np_random self;
     viewer := viewer self;
     state := state self;
     steps_beyond_done := steps_beyond_done self |}.

(** ** Concrete objects and auxiliary notions *)

(** The environment after [__init__] with its state set to [s]. *)
Definition env0_at (s : array) (c : option nat) : Env :=
  set_steps_beyond_done (set_state env0 (Some s)) c.

(** An object with the constants of [__init__] but another generator, an open
    viewer, another stored state and a running counter. *)
Definition env0_other : Env :=
  {| gravity := gravity env0; masscart := masscart env0;
     masspole := masspole env0; total_mass := total_mass env0;
     length := length env0; polemass_length := polemass_length env0;
     max_force := max_force env0; tau := tau env0; b := b env0; I := I env0;
     F_t := F_t env0;
     theta_threshold_radians := theta_threshold_radians env0;
     x_threshold := x_threshold env0;
     action_space := action_space env0;
     observation_space := observation_space env0;
     np_random := 42%nat;
     viewer := Some 1%nat;
     state := Some [1; 1; 1; 1];
     steps_beyond_done := Some 7%nat |}.

(** A second transition matrix of the same shape. *)
Definition F_ones : matrix :=
  [[1;1;1;1;1]; [1;1;1;1;1]; [1;1;1;1;1]; [1;1;1;1;1]].

(** The termination test of [_step] on a post-step state. *)
Definition out_of_bounds (self : Env) (x theta : R) : Prop :=
  x < - x_threshold self \/ x > x_threshold self \/
  theta < - theta_threshold_radians self \/
  theta > theta_threshold_radians self.

(** The number of done steps an episode has behind it: those counted by the
    termination counter at the start, and [k] since. *)
Definition done_before (c : option nat) (k : nat) : nat :=
  match c with
  | None => k
  | Some n => S (n + k)
  end.

(** The messages logged over an episode. *)
Definition logged (rs : list step_return) : list string :=
  List.concat (map log_of rs).

(** A cart at rest inside the bounds with the counter at 3, and what a step
    returns there. *)
Definition env_inside : Env := env0_at [1; 0; 0; 0] (Some 3%nat).
Definition ret_inside : step_return :=
  (env_inside, [], ([1; 0; 0; 0], 1.0, false, [])).

(** A cart at rest outside the position bound with the counter unset, and
    what a step returns there. *)
Definition env_outside : Env := env0_at [10; 0; 0; 0] None.
Definition ret_outside : step_return :=
  (env0_at [10; 0; 0; 0] (Some 0%nat), [], ([10; 0; 0; 0], 1.0, true, [])).

(** ** Seeding and rendering *)

(** [self.np_random] and [self.viewer] replaced, everything else kept. *)
Definition set_np_random (self : Env) (g : RandomState) : Env :=
  {| gravity := gravity self; masscart := masscart self;
     masspole := masspole self; total_mass := total_mass self;
     length := length self; polemass_length := polemass_length self;
     max_force := max_force self; tau := tau self; b := b self; I := I self;
     F_t := F_t self;
     theta_threshold_radians := theta_threshold_radians self;
     x_threshold := x_threshold self;
     action_space := action_space self;
     observation_space := observation_space self;
     np_random := g;
     viewer := viewer self;
     state := state self;
     steps_beyond_done := steps_beyond_done self |}.

Definition set_viewer (self : Env) (v : option Viewer) : Env :=
  {| gravity := gravity self; masscart := masscart self;
     masspole := masspole self; total_mass := total_mass self;
     length := length self; polemass_length := polemass_length self;
     max_force := max_force self; tau := tau self; b := b self; I := I self;
     F_t := F_t self;
     theta_threshold_radians := theta_threshold_radians self;
     x_threshold := x_threshold self;
     action_space := action_space self;
     observation_space := observation_space self;
     np_random := np_random self;
     viewer := v;
     state := state self;
     steps_beyond_done := steps_beyond_done self |}.

(** [_seed(seed)].  [seeding_np_random] stands for gym's
    [seeding.np_random]: from an optional seed, a generator and the seed in
    effect.  The method returns the one-entry list of that seed. *)
Definition _seed (seeding_np_random : option nat -> RandomState * nat)
  (self : Env) (seed : option nat) : Env * list nat :=
  let '(np_random, seed) := seeding_np_random seed in
  (set_np_random self np_random, [seed]).

(** The calls [_render] makes on gym's rendering library, in order, with
    their arguments.  A geometry is recorded when it is handed to the viewer,
    with the colour set on it and the transforms attached to it by then. *)
Inductive transform : Type :=
| carttrans
| poletrans.

Inductive shape : Type :=
| FilledPolygon (v : list (R * R))
| make_circle (radius : R)
| Line (start finish : R * R).

Record geom : Type := mkGeom {
  geom_shape : shape;
  geom_color : option (R * R * R);
  geom_attrs : list transform
}.

Inductive rendering_call : Type :=
| Viewer_close (v : Viewer)
| Viewer_init (v : Viewer) (width height : R)
| Transform_init (t : transform) (translation : option (R * R))
| add_geom (g : geom)
| set_translation (t : transform) (newx newy : R)
| set_rotation (t : transform) (new : R)
| Viewer_render (return_rgb_array : bool).

(** What [_render] returns: [None], or whatever [viewer.render] returned. *)
Inductive rendered : Type :=
| returns_None
| returns_viewer_render (return_rgb_array : bool).

(** [_render(mode, close)].  [fresh] is the viewer the rendering library
    hands out when one is made.  The object and the library calls made are
    given also when the method raises: [x[0]] and [x[2]] raise [IndexError]
    on a stored state that is too short, after the viewer has been made. *)
Definition _render (fresh : Viewer) (self : Env) (mode : string) (close : bool)
  : Env * list rendering_call * result rendered :=
  if close then
    match viewer self with
    | Some v => (set_viewer self None, [Viewer_close v], Ok returns_None)
    | None => (self, [], Ok returns_None)
    end
  else
    let screen_width := 1200 in
    let screen_height := 400 in
    let world_width := x_threshold self * 2 in
    let scale := screen_width / world_width / 3 in
    let carty := 100 in
    let polewidth := 10.0 in
    let polelen := scale * 1.0 in
    let cartwidth := 50.0 in
    let cartheight := 30.0 in
    let '(self, made) :=
      match viewer self with
      | None =>
          let '(l, r, t, b) :=
            (- cartwidth / 2, cartwidth / 2, cartheight / 2, - cartheight / 2) in
          let axleoffset := cartheight / 4.0 in
          let cart :=
            mkGeom (FilledPolygon [(l, b); (l, t); (r, t); (r, b)]) None
                   [carttrans] in
          let '(l, r, t, b) :=
            (- polewidth / 2, polewidth / 2, polelen - polewidth / 2,
             - polewidth / 2) in
          let pole :=
            mkGeom (FilledPolygon [(l, b); (l, t); (r, t); (r, b)])
                   (Some (0.8, 0.6, 0.4)) [poletrans; carttrans] in
          let axle :=
            mkGeom (make_circle (polewidth / 2)) (Some (0.5, 0.5, 0.8))
                   [poletrans; carttrans] in
          let track :=
            mkGeom (Line (0, carty) (screen_width, carty)) (Some (0, 0, 0))
                   [] in
          (set_viewer self (Some fresh),
           [Viewer_init fresh screen_width screen_height;
            Transform_init carttrans None;
            add_geom cart;
            Transform_init poletrans (Some (0, axleoffset));
            add_geom pole;
            add_geom axle;
            add_geom track])
      | Some _ => (self, [])
      end in
    match state self with
    | None => (self, made, Ok returns_None)
    | Some x =>
        match nth_error x 0 with
        | None => (self, made, Raise IndexError)
        | Some x0 =>
            let cartx := x0 * scale + screen_width / 2.0 in
            match nth_error x 2 with
            | None =>
                (self, made ++ [set_translation carttrans cartx carty],
                 Raise IndexError)
            | Some x2 =>
                let return_rgb_array := String.eqb mode "rgb_array" in
                (self,
                 made ++ [set_translation carttrans cartx carty;
                          set_rotation poletrans (- x2);
                          Viewer_render return_rgb_array],
                 Ok (returns_viewer_render return_rgb_array))
            end
        end
    end.

(** A caller's use of the whole interface: steps and resets, with seeding
    and rendering in between. *)
Inductive api_call : Type :=
| api_step (action : array)
| api_reset
| api_seed (seed : option nat)
| api_render (mode : string) (close : bool).

Definition api_perform
  (seeding_np_random : option nat -> RandomState * nat) (fresh : Viewer)
  (self : Env) (c : api_call) : Env :=
  match c with
  | api_step action => perform self (step action)
  | api_reset => perform self reset
  | api_seed seed => fst (_seed seeding_np_random self seed)
  | api_render mode close => fst (fst (_render fresh self mode close))
  end.

Definition api_history
  (seeding_np_random : option nat -> RandomState * nat) (fresh : Viewer)
  (self : Env) (calls : list api_call) : Env :=
  fold_left (api_perform seeding_np_random fresh) calls self.

(** The step and reset calls among [calls]. *)
Fixpoint dynamics_calls (calls : list api_call) : list call :=
  match calls with
  | [] => []
  | api_step action :: rest => step action :: dynamics_calls rest
  | api_reset :: rest => reset :: dynamics_calls rest
  | _ :: rest => dynamics_calls rest
  end.

(** The stored state is unset or has four entries. *)
Definition state_shape (self : Env) : Prop :=
  match state self with
  | None => True
  | Some s => List.length s = 4%nat
  end.

(** A generator source for concrete runs: the seed given, or 0. *)
Definition seeding0 (seed : option nat) : RandomState * nat :=
  match seed with
  | Some n => (n, n)
  | None => (0%nat, 0%nat)
  end.

(** [e1] is [e2] but for the generator and the viewer. *)
Definition same_but_generator_and_viewer (e1 e2 : Env) : Prop :=
  e1 = set_viewer (set_np_random e2 (np_random e1)) (viewer e1).

(** The calls that build the scene. *)
Definition builds_scene (c : rendering_call) : bool :=
  match c with
  | Viewer_init _ _ _ | Transform_init _ _ | add_geom _ => true
  | _ => false
  end.

(** * Properties *)

(** [env0] is what the constructor builds from zero matrices. *)
Lemma init_env0 : __init__ G0 H0 0%nat = Ok env0.
Proof. reflexivity. Qed.

(** ** Comparisons *)

Section Comparisons.

Variables a c : R.

Lemma Rltb_lt : Rltb a c = true <-> a < c.
Proof. unfold Rltb; destruct (Rlt_dec a c); split; intros; auto; discriminate. Qed.

Lemma Rltb_ge : Rltb a c = false <-> c <= a.
Proof.
  unfold Rltb; destruct (Rlt_dec a c); split; intros; auto;
    try discriminate; lra.
Qed.

Lemma Rleb_le : Rleb a c = true <-> a <= c.
Proof. unfold Rleb; destruct (Rle_dec a c); split; intros; auto; discriminate. Qed.

Lemma Rleb_gt : Rleb a c = false <-> c < a.
Proof.
  unfold Rleb; destruct (Rle_dec a c); split; intros; auto;
    try discriminate; lra.
Qed.

End Comparisons.

(** Decide every comparison of the goal from the hypotheses at hand. *)
Ltac decide_comparisons :=
  pose proof PI_RGT_0; pose proof PI_4;
  unfold Rgtb, Rgeb;
  repeat match goal with
    | |- context [Rltb ?p ?q] =>
        first [ rewrite (proj2 (Rltb_lt p q)) by lra
              | rewrite (proj2 (Rltb_ge p q)) by lra ]
    | |- context [Rleb ?p ?q] =>
        first [ rewrite (proj2 (Rleb_le p q)) by lra
              | rewrite (proj2 (Rleb_gt p q)) by lra ]
    end;
  cbn [andb orb negb].

(** ** The dynamics step returns *)

Lemma matmul_compatible (A : matrix) (v : array) :
  ncols (List.length v) A = true ->
  matmul A v = Ok (map (fun row => dot row v) A).
Proof. intros HA; unfold matmul; rewrite HA; reflexivity. Qed.

(** With a compatible [F_t], a four-entry state and a one-entry action the
    dynamics step returns four entries: the position is the Euler update, the
    angle the Euler update wrapped once. *)
Lemma _state_eq_returns (self : Env) (x x_dot theta theta_dot u : R) :
  compatible self ->
  exists x_dot' theta_dot',
    _state_eq self [x; x_dot; theta; theta_dot] [u] =
    Ok [x + tau self * x_dot;
        x_dot';
        (if Rltb theta PI && Rgeb (theta + tau self * theta_dot) PI
         then theta + tau self * theta_dot - 2 * PI
         else if Rgtb theta (- PI) && Rleb (theta + tau self * theta_dot) (- PI)
              then theta + tau self * theta_dot + 2 * PI
              else theta + tau self * theta_dot);
        theta_dot'].
Proof.
  intros HF; unfold _state_eq.
  rewrite matmul_compatible by exact HF.
  cbn [bind]; eauto.
Qed.

(** A cart at rest with an upright pole and no force stays where it is. *)
Lemma _state_eq_at_rest (self : Env) (x : R) :
  compatible self ->
  _state_eq self [x; 0; 0; 0] [0] = Ok [x; 0; 0; 0].
Proof.
  intros HF; unfold _state_eq.
  rewrite matmul_compatible by exact HF.
  cbn [bind]; rewrite sin_0, cos_0.
  replace (0 + tau self * 0) with 0 by ring.
  decide_comparisons.
  unfold Rdiv; apply f_equal; repeat (f_equal; try ring).
Qed.

(** ** C1: the dynamics step is the algorithm of section 4.1 *)

(** C1.  For every state (x, x_dot, theta, theta_dot) and scalar action u,
    with a transition matrix of compatible shape, [_state_eq] returns the
    state computed by the algorithm of section 4.1 of the specification:
    force = -u, temp, thetaacc and xacc by the stated formulas, the
    explicit-Euler update with step size tau of all four components, and the
    single angle wrap of step 6. *)
Theorem C1_state_eq_is_advance (self : Env) (x x_dot theta theta_dot u : R) :
  compatible self ->
  _state_eq self [x; x_dot; theta; theta_dot] [u] =
  let '(x', x_dot', theta', theta_dot') :=
    advance_spec self x x_dot theta theta_dot u in
  Ok [x'; x_dot'; theta'; theta_dot'].
Proof.
  intros HF; unfold _state_eq, advance_spec, Rsqr.
  rewrite matmul_compatible by exact HF.
  cbn [bind].
  replace (cos theta ^ 2) with (cos theta * cos theta) by ring.
  replace (polemass_length self * theta_dot * theta_dot * sin theta)
    with (polemass_length self * (theta_dot * theta_dot) * sin theta) by ring.
  reflexivity.
Qed.

Lemma env0_at_compatible (s : array) (c : option nat) :
  compatible (env0_at s c).
Proof. reflexivity. Qed.

Lemma C1_state_eq_is_advance_witness :
  compatible (env0_at [0; 0; 0; 0] None) /\
  _state_eq (env0_at [0; 0; 0; 0] None) [1; 2; 3; 4] [5] =
  let '(x', x_dot', theta', theta_dot') :=
    advance_spec (env0_at [0; 0; 0; 0] None) 1 2 3 4 5 in
  Ok [x'; x_dot'; theta'; theta_dot'].
Proof.
  split.
  - reflexivity.
  - apply (C1_state_eq_is_advance (env0_at [0; 0; 0; 0] None) 1 2 3 4 5).
    reflexivity.
Defined.

(** ** C7: determinism *)

(** C7.  The next state computed by [_state_eq] is a function of the
    configuration constants, the state and the action alone: two objects with
    identical constants, whatever their stored state, termination counter,
    random generator and viewer, give identical results (the same next state,
    or the same exception) on identical inputs. *)
Theorem C7_state_eq_deterministic (e1 e2 : Env) (st u : array) :
  same_constants e1 e2 ->
  _state_eq e1 st u = _state_eq e2 st u.
Proof.
  unfold same_constants; intros H.
  destruct e1, e2; cbn in H.
  repeat match goal with H : _ /\ _ |- _ => destruct H end; subst.
  reflexivity.
Qed.

Lemma C7_state_eq_deterministic_witness :
  same_constants env0 env0_other /\
  _state_eq env0 [1; 2; 3; 4] [5] = _state_eq env0_other [1; 2; 3; 4] [5].
Proof.
  assert (H : same_constants env0 env0_other)
    by (unfold same_constants; cbn; repeat split).
  split.
  - exact H.
  - exact (C7_state_eq_deterministic env0 env0_other [1; 2; 3; 4] [5] H).
Defined.

(** ** C8: the transition matrix does not influence the next state *)

(** C8.  For every state and action, two runs of [_state_eq] on objects that
    differ only in [F_t], both matrices of a shape compatible with the
    stacked state and action, return the same next state: the product
    [F_t @ states] is evaluated and its value dropped. *)
Theorem C8_F_t_noninterference (self : Env) (F F' : matrix) (st u : array) :
  ncols (List.length (st ++ u)) F = true ->
  ncols (List.length (st ++ u)) F' = true ->
  _state_eq (set_F_t self F) st u = _state_eq (set_F_t self F') st u.
Proof.
  intros HF HF'; unfold _state_eq; cbn [F_t set_F_t].
  rewrite !matmul_compatible by assumption.
  reflexivity.
Qed.

Lemma C8_F_t_noninterference_witness :
  ncols (List.length ([1; 2; 3; 4] ++ [5])) (F_t env0) = true /\
  ncols (List.length ([1; 2; 3; 4] ++ [5])) F_ones = true /\
  _state_eq (set_F_t env0 (F_t env0)) [1; 2; 3; 4] [5] =
  _state_eq (set_F_t env0 F_ones) [1; 2; 3; 4] [5].
Proof.
  split; [reflexivity | split; [reflexivity | ]].
  apply (C8_F_t_noninterference env0 (F_t env0) F_ones [1; 2; 3; 4] [5]);
    reflexivity.
Defined.

(** ** The controller: what a returning step did *)

Lemma done_test (xt tt x theta : R) :
  Rltb x (- xt) || Rgtb x xt || Rltb theta (- tt) || Rgtb theta tt = true
  <-> (x < - xt \/ x > xt \/ theta < - tt \/ theta > tt).
Proof.
  unfold Rgtb; rewrite !orb_true_iff, !Rltb_lt; unfold Rgt; tauto.
Qed.

(** Every returning call of [_step] took one of the three branches of the
    reward policy, on the state the dynamics step produced. *)
Lemma _step_inv (self : Env) (action : array) (r : step_return) :
  _step self action = Ok r ->
  exists st x x_dot theta theta_dot,
    state self = Some st /\
    _state_eq self st action = Ok [x; x_dot; theta; theta_dot] /\
    state_of r = [x; x_dot; theta; theta_dot] /\
    info_of r = [] /\
    (done_of r = true <-> out_of_bounds self x theta) /\
    ( (done_of r = false /\ reward_of r = 1.0 /\ log_of r = [] /\
       env_of r = set_state self (Some (state_of r)))
      \/
      (done_of r = true /\ steps_beyond_done self = None /\
       reward_of r = 1.0 /\ log_of r = [] /\
       env_of r = set_steps_beyond_done (set_state self (Some (state_of r)))
                    (Some 0%nat))
      \/
      (done_of r = true /\
       exists n, steps_beyond_done self = Some n /\
         reward_of r = 0.0 /\
         log_of r = (if Nat.eqb n 0 then [step_warning] else []) /\
         env_of r = set_steps_beyond_done (set_state self (Some (state_of r)))
                      (Some (n + 1)%nat)) ).
Proof.
  unfold _step; intros Hstep.
  destruct (state self) as [st|] eqn:Hst; [|discriminate].
  destruct (_state_eq self st action) as [new|e] eqn:Heq; [|discriminate].
  cbn [bind] in Hstep.
  destruct new as [|x [|x_dot [|theta [|theta_dot [|? ?]]]]]; try discriminate.
  cbn [x_threshold theta_threshold_radians steps_beyond_done set_state] in Hstep.
  exists st, x, x_dot, theta, theta_dot.
  pose proof (done_test (x_threshold self) (theta_threshold_radians self)
                x theta) as Hd.
  destruct (Rltb x (- x_threshold self) || Rgtb x (x_threshold self)
            || Rltb theta (- theta_threshold_radians self)
            || Rgtb theta (theta_threshold_radians self)) eqn:Hdone;
    cbn [negb] in Hstep.
  - destruct (steps_beyond_done self) as [n|] eqn:Hc;
      injection Hstep as <-;
      cbn [state_of info_of done_of reward_of log_of env_of fst snd];
      repeat split; auto; try (apply (proj1 Hd); reflexivity).
    + right; right; split; [reflexivity|]; exists n; repeat split.
    + right; left; repeat split.
  - injection Hstep as <-;
      cbn [state_of info_of done_of reward_of log_of env_of fst snd];
      repeat split; auto; try discriminate.
    intros Hout; apply (proj2 Hd); exact Hout.
Qed.

(** With a compatible [F_t], a stored four-entry state and a one-entry action,
    [_step] returns. *)
Lemma _step_returns (self : Env) (x x_dot theta theta_dot u : R) :
  compatible self ->
  state self = Some [x; x_dot; theta; theta_dot] ->
  exists r, _step self [u] = Ok r.
Proof.
  intros HF Hst.
  destruct (_state_eq_returns self x x_dot theta theta_dot u HF)
    as (xd' & td' & Heq).
  unfold _step; rewrite Hst, Heq; cbn [bind].
  match goal with
  | |- context [negb ?d] => destruct d
  end; cbn [negb].
  - destruct (steps_beyond_done _); eauto.
  - eauto.
Qed.

(** A step from rest, outside the position bound: the state stays, the call
    is done, and the reward and the counter follow the counter at entry. *)
Lemma _step_at_rest_outside (self : Env) (x : R) :
  compatible self ->
  state self = Some [x; 0; 0; 0] ->
  x_threshold self < x ->
  _step self [0] =
  Ok (match steps_beyond_done self with
      | None =>
          (set_steps_beyond_done (set_state self (Some [x; 0; 0; 0]))
             (Some 0%nat), [], ([x; 0; 0; 0], 1.0, true, []))
      | Some n =>
          (set_steps_beyond_done (set_state self (Some [x; 0; 0; 0]))
             (Some (n + 1)%nat),
           (if Nat.eqb n 0 then [step_warning] else []),
           ([x; 0; 0; 0], 0.0, true, []))
      end).
Proof.
  intros HF Hst Hx.
  unfold _step; rewrite Hst, _state_eq_at_rest by exact HF.
  cbn [bind x_threshold theta_threshold_radians steps_beyond_done set_state].
  replace (Rgtb x (x_threshold self)) with true
    by (symmetry; apply Rltb_lt; exact Hx).
  rewrite orb_true_r; cbn [orb negb].
  destruct (steps_beyond_done self); reflexivity.
Qed.

(** A step from rest inside the bounds: the state stays, the call is not
    done, the reward is 1.0 and the counter is not touched. *)
Lemma _step_at_rest_inside (self : Env) (x : R) :
  compatible self ->
  state self = Some [x; 0; 0; 0] ->
  - x_threshold self <= x <= x_threshold self ->
  0 <= theta_threshold_radians self ->
  _step self [0] =
  Ok (set_state self (Some [x; 0; 0; 0]), [], ([x; 0; 0; 0], 1.0, false, [])).
Proof.
  intros HF Hst Hx Ht.
  unfold _step; rewrite Hst, _state_eq_at_rest by exact HF.
  cbn [bind x_threshold theta_threshold_radians steps_beyond_done set_state].
  decide_comparisons.
  reflexivity.
Qed.

Lemma theta_threshold_env0_pos (s : array) (c : option nat) :
  0 < theta_threshold_radians (env0_at s c).
Proof. cbn; pose proof PI_RGT_0; lra. Qed.

Lemma state_of_env_of (self : Env) (action : array) (r : step_return) :
  _step self action = Ok r ->
  state (env_of r) = Some (state_of r).
Proof.
  intros Hstep.
  destruct (_step_inv self action r Hstep)
    as (st & x & xd & th & td & _ & _ & _ & _ & _ & Hbr).
  destruct Hbr as [(_ & _ & _ & ->) | [(_ & _ & _ & _ & ->) | (_ & n & _ & _ & _ & ->)]];
    reflexivity.
Qed.

(** A step on a stored four-entry state: it returns, and the returned state
    is the one the dynamics step computes and the one the object keeps. *)
Lemma _step_post (self : Env) (x x_dot theta theta_dot u : R) :
  compatible self ->
  state self = Some [x; x_dot; theta; theta_dot] ->
  exists r x' x_dot' theta' theta_dot',
    _step self [u] = Ok r /\
    _state_eq self [x; x_dot; theta; theta_dot] [u]
    = Ok [x'; x_dot'; theta'; theta_dot'] /\
    state_of r = [x'; x_dot'; theta'; theta_dot'] /\
    state (env_of r) = Some (state_of r) /\
    (done_of r = true <-> out_of_bounds self x' theta') /\
    (done_of r = false -> reward_of r = 1.0).
Proof.
  intros HF Hst.
  destruct (_step_returns self x x_dot theta theta_dot u HF Hst) as (r & Hr).
  destruct (_step_inv self [u] r Hr)
    as (st & x' & xd' & th' & td' & Hst' & Heq & Hs & _ & Hd & Hbr).
  rewrite Hst in Hst'; injection Hst' as <-.
  exists r, x', xd', th', td'.
  pose proof (state_of_env_of self [u] r Hr) as Hkept.
  repeat split; auto; try apply Hd.
  intros Hnd.
  destruct Hbr as [(_ & Hrw & _) | [(Ht & _) | (Ht & _)]];
    [exact Hrw | congruence | congruence].
Qed.

(** ** C2: a step that ends inside the bounds *)

(** C2, as stated, fails: from the state (2.399, 1, 0, 0), strictly inside
    both bounds, with action 0 and the constants of [__init__], the step
    moves the cart to x = 2.399 + 0.005 * 1 = 2.404 > 2.4 and returns
    done = True. *)
Lemma C2_counterexample :
  let self := env0_at [2.399; 1; 0; 0] None in
  (- x_threshold self < 2.399 < x_threshold self) /\
  (- theta_threshold_radians self < 0 < theta_threshold_radians self) /\
  exists r,
    _step self [0] = Ok r /\ nth 0 (state_of r) 0 = 2.404 /\ done_of r = true.
Proof.
  intros self.
  pose proof (theta_threshold_env0_pos [2.399; 1; 0; 0] None) as Hth.
  fold self in Hth.
  split; [change (x_threshold self) with 2.4; lra | split; [lra|]].
  destruct (_step_post self 2.399 1 0 0 0 (env0_at_compatible _ _) eq_refl)
    as (r & x' & xd' & th' & td' & Hr & Heq & Hs & _ & Hd & _).
  destruct (_state_eq_returns self 2.399 1 0 0 0 (env0_at_compatible _ _))
    as (xd & td & Heq').
  rewrite Heq' in Heq; injection Heq as Hx _ _ _.
  change (tau self) with 0.005 in Hx.
  exists r; split; [exact Hr|]; rewrite Hs; cbn [nth]; split; [lra|].
  apply Hd; right; left.
  change (x_threshold self) with 2.4; lra.
Qed.

(** C2 (amended).  For every step call, whatever the action, whose post-step
    state has theta strictly inside (-theta_threshold_radians,
    theta_threshold_radians) and x strictly inside (-x_threshold,
    x_threshold), the call returns reward 1.0 and done = False. *)
Theorem C2_inside_after_step (self : Env) (x x_dot theta theta_dot u : R) :
  compatible self ->
  state self = Some [x; x_dot; theta; theta_dot] ->
  exists r x' x_dot' theta' theta_dot',
    _step self [u] = Ok r /\
    state_of r = [x'; x_dot'; theta'; theta_dot'] /\
    state (env_of r) = Some (state_of r) /\
    (- x_threshold self < x' < x_threshold self ->
     - theta_threshold_radians self < theta' < theta_threshold_radians self ->
     reward_of r = 1.0 /\ done_of r = false).
Proof.
  intros HF Hst.
  destruct (_step_post self x x_dot theta theta_dot u HF Hst)
    as (r & x' & xd' & th' & td' & Hr & _ & Hs & Hkept & Hd & Hrw).
  exists r, x', xd', th', td'; repeat split; auto.
  - apply Hrw.
    destruct (done_of r); [|reflexivity].
    destruct (proj1 Hd eq_refl) as [?|[?|[?|?]]]; lra.
  - destruct (done_of r); [|reflexivity].
    destruct (proj1 Hd eq_refl) as [?|[?|[?|?]]]; lra.
Qed.

Lemma C2_inside_after_step_witness :
  compatible (env0_at [1; 0; 0; 0] (Some 3%nat)) /\
  state (env0_at [1; 0; 0; 0] (Some 3%nat)) = Some [1; 0; 0; 0] /\
  exists r x' x_dot' theta' theta_dot',
    _step (env0_at [1; 0; 0; 0] (Some 3%nat)) [0] = Ok r /\
    state_of r = [x'; x_dot'; theta'; theta_dot'] /\
    state (env_of r) = Some (state_of r) /\
    (- x_threshold (env0_at [1; 0; 0; 0] (Some 3%nat)) < x'
       < x_threshold (env0_at [1; 0; 0; 0] (Some 3%nat)) ->
     - theta_threshold_radians (env0_at [1; 0; 0; 0] (Some 3%nat)) < theta'
       < theta_threshold_radians (env0_at [1; 0; 0; 0] (Some 3%nat)) ->
     reward_of r = 1.0 /\ done_of r = false).
Proof.
  split; [reflexivity | split; [reflexivity|]].
  apply (C2_inside_after_step (env0_at [1; 0; 0; 0] (Some 3%nat)) 1 0 0 0 0);
    reflexivity.
Defined.

(** ** C3: the done flag *)

(** C3.  For every step call the returned done flag is True exactly when the
    post-step state has x < -x_threshold or x > x_threshold or
    theta < -theta_threshold_radians or theta > theta_threshold_radians; the
    comparisons are strict, so a post-step state on a threshold (and not
    beyond another) is not done. *)
Theorem C3_done_iff_out_of_bounds (self : Env) (x x_dot theta theta_dot u : R) :
  compatible self ->
  state self = Some [x; x_dot; theta; theta_dot] ->
  exists r x' x_dot' theta' theta_dot',
    _step self [u] = Ok r /\
    state_of r = [x'; x_dot'; theta'; theta_dot'] /\
    state (env_of r) = Some (state_of r) /\
    (done_of r = true <->
       x' < - x_threshold self \/ x' > x_threshold self \/
       theta' < - theta_threshold_radians self \/
       theta' > theta_threshold_radians self) /\
    (- x_threshold self <= x' <= x_threshold self ->
     - theta_threshold_radians self <= theta' <= theta_threshold_radians self ->
     done_of r = false).
Proof.
  intros HF Hst.
  destruct (_step_post self x x_dot theta theta_dot u HF Hst)
    as (r & x' & xd' & th' & td' & Hr & _ & Hs & Hkept & Hd & _).
  exists r, x', xd', th', td'; repeat split; auto; try apply Hd.
  intros Hx Ht.
  destruct (done_of r); [|reflexivity].
  destruct (proj1 Hd eq_refl) as [?|[?|[?|?]]]; lra.
Qed.

Lemma C3_done_iff_out_of_bounds_witness :
  compatible (env0_at [2.4; 0; 0; 0] None) /\
  state (env0_at [2.4; 0; 0; 0] None) = Some [2.4; 0; 0; 0] /\
  exists r x' x_dot' theta' theta_dot',
    _step (env0_at [2.4; 0; 0; 0] None) [0] = Ok r /\
    state_of r = [x'; x_dot'; theta'; theta_dot'] /\
    state (env_of r) = Some (state_of r) /\
    (done_of r = true <->
       x' < - x_threshold (env0_at [2.4; 0; 0; 0] None) \/
       x' > x_threshold (env0_at [2.4; 0; 0; 0] None) \/
       theta' < - theta_threshold_radians (env0_at [2.4; 0; 0; 0] None) \/
       theta' > theta_threshold_radians (env0_at [2.4; 0; 0; 0] None)) /\
    (- x_threshold (env0_at [2.4; 0; 0; 0] None) <= x'
       <= x_threshold (env0_at [2.4; 0; 0; 0] None) ->
     - theta_threshold_radians (env0_at [2.4; 0; 0; 0] None) <= theta'
       <= theta_threshold_radians (env0_at [2.4; 0; 0; 0] None) ->
     done_of r = false).
Proof.
  split; [reflexivity | split; [reflexivity|]].
  apply (C3_done_iff_out_of_bounds (env0_at [2.4; 0; 0; 0] None) 2.4 0 0 0 0);
    reflexivity.
Defined.

(** On the threshold itself: the cart at rest at x = x_threshold = 2.4 with
    an upright pole is not done. *)
Example step_on_threshold :
  _step (env0_at [2.4; 0; 0; 0] None) [0] =
  Ok (set_state (env0_at [2.4; 0; 0; 0] None) (Some [2.4; 0; 0; 0]), [],
      ([2.4; 0; 0; 0], 1.0, false, [])).
Proof.
  apply _step_at_rest_inside.
  - reflexivity.
  - reflexivity.
  - cbn; lra.
  - apply Rlt_le, theta_threshold_env0_pos.
Qed.

(** ** C4: reward sequencing across an episode *)

Lemma steps_cons (self : Env) (action : array) (rest : list array) :
  steps self (action :: rest) =
  match _step self action with
  | Ok r => r :: steps (env_of r) rest
  | Raise _ => []
  end.
Proof.
  cbn [steps]; destruct (_step self action) as [[[self' log] ret]|]; reflexivity.
Qed.

(** What a single returning step does to the reward, the counter and the
    log, by the number of done steps behind it. *)
Lemma _step_sequencing (self : Env) (action : array) (r : step_return) :
  _step self action = Ok r ->
  (done_of r = false ->
   steps_beyond_done (env_of r) = steps_beyond_done self /\
   reward_of r = 1.0 /\ log_of r = []) /\
  (done_of r = true ->
   let m := done_before (steps_beyond_done self) 0 in
   reward_of r = (if Nat.eqb m 0 then 1.0 else 0.0) /\
   steps_beyond_done (env_of r) = Some m /\
   log_of r = (if Nat.eqb m 1 then [step_warning] else [])).
Proof.
  intros Hstep.
  destruct (_step_inv self action r Hstep)
    as (st & x & xd & th & td & _ & _ & _ & _ & _ & Hbr).
  destruct Hbr as [(Hd & Hrw & Hlog & ->)
                  | [(Hd & Hc & Hrw & Hlog & ->)
                    | (Hd & n & Hc & Hrw & Hlog & ->)]];
    (split; intros Hd'; [|intros m; subst m]); try congruence;
    rewrite ?Hc; cbn; auto.
  rewrite Nat.add_0_r, Hrw, Hlog.
  replace (n + 1)%nat with (S n) by lia.
  destruct n; auto.
Qed.

Lemma steps_sequencing (actions : list array) :
  forall (self : Env) (i : nat) (r : step_return),
    nth_error (steps self actions) i = Some r ->
    done_of r = true ->
    let m := done_before (steps_beyond_done self)
               (count_done (firstn i (steps self actions))) in
    reward_of r = (if Nat.eqb m 0 then 1.0 else 0.0) /\
    steps_beyond_done (env_of r) = Some m /\
    log_of r = (if Nat.eqb m 1 then [step_warning] else []).
Proof.
  induction actions as [|action rest IH]; intros self i r Hnth Hdone.
  - destruct i; discriminate.
  - rewrite steps_cons in Hnth |- *.
    destruct (_step self action) as [r1|e] eqn:Hstep;
      [|destruct i; discriminate].
    destruct (_step_sequencing self action r1 Hstep) as [Hnd Hd].
    destruct i as [|i].
    + injection Hnth as ->. cbn [firstn]. exact (Hd Hdone).
    + cbn [nth_error] in Hnth.
      specialize (IH (env_of r1) i r Hnth Hdone).
      cbn [firstn]; unfold count_done in *; cbn [filter].
      destruct (done_of r1) eqn:Hd1.
      * destruct (Hd eq_refl) as (_ & Hc & _).
        rewrite Hc in IH; cbn [List.length].
        replace (done_before (steps_beyond_done self)
                   (S (List.length (filter done_of
                                      (firstn i (steps (env_of r1) rest))))))
          with (done_before
                  (Some (done_before (steps_beyond_done self) 0))
                  (List.length (filter done_of
                                  (firstn i (steps (env_of r1) rest)))));
          [exact IH|].
        destruct (steps_beyond_done self); cbn; lia.
      * destruct (Hnd eq_refl) as (Hc & _).
        rewrite Hc in IH; exact IH.
Qed.

Lemma logged_length (actions : list array) :
  forall self : Env,
    List.length (logged (steps self actions)) =
    match steps_beyond_done self with
    | None => if Nat.leb 2 (count_done (steps self actions)) then 1%nat else 0%nat
    | Some 0%nat =>
        if Nat.leb 1 (count_done (steps self actions)) then 1%nat else 0%nat
    | Some (S _) => 0%nat
    end.
Proof.
  induction actions as [|action rest IH]; intros self.
  - cbn; destruct (steps_beyond_done self) as [[|n]|]; reflexivity.
  - rewrite steps_cons.
    destruct (_step self action) as [r1|e] eqn:Hstep.
    + destruct (_step_sequencing self action r1 Hstep) as [Hnd Hd].
      specialize (IH (env_of r1)).
      unfold logged, count_done in *; cbn [map List.concat filter].
      rewrite length_app, IH.
      destruct (done_of r1) eqn:Hd1.
      * destruct (Hd eq_refl) as (_ & Hc & Hlog).
        rewrite Hc, Hlog.
        destruct (steps_beyond_done self) as [[|n]|]; cbn; reflexivity.
      * destruct (Hnd eq_refl) as (Hc & _ & Hlog).
        rewrite Hc, Hlog; reflexivity.
    + cbn; destruct (steps_beyond_done self) as [[|n]|]; reflexivity.
Qed.

(** C4.  In an episode that starts with the termination counter unset, the
    step call number [i] whose post-step state is done, with [k] done steps
    before it, returns reward 1.0 and sets the counter to 0 when it is the
    first (k = 0); every later one (k > 0) returns reward 0.0 and leaves the
    counter at k, one more than the done step before it, so the counter
    strictly increases; the warning is logged by the second done step (k = 1)
    and by no other, so once over the episode when there are at least two
    done steps. *)
Theorem C4_reward_sequencing
  (self : Env) (actions : list array) (i : nat) (r : step_return) :
  steps_beyond_done self = None ->
  nth_error (steps self actions) i = Some r ->
  done_of r = true ->
  let k := count_done (firstn i (steps self actions)) in
  reward_of r = (if Nat.eqb k 0 then 1.0 else 0.0) /\
  steps_beyond_done (env_of r) = Some k /\
  log_of r = (if Nat.eqb k 1 then [step_warning] else []) /\
  List.length (logged (steps self actions)) =
  (if Nat.leb 2 (count_done (steps self actions)) then 1%nat else 0%nat).
Proof.
  intros Hc Hnth Hdone k.
  pose proof (steps_sequencing actions self i r Hnth Hdone) as Hseq.
  pose proof (logged_length actions self) as Hlog.
  rewrite Hc in Hseq, Hlog; cbn [done_before] in Hseq.
  destruct Hseq as (H1 & H2 & H3); auto.
Qed.

(** An episode of three steps from rest at x = 10, outside the position
    bound: every step is done. *)
Lemma _step_env0_outside (x : R) (c : option nat) :
  2.4 < x ->
  _step (env0_at [x; 0; 0; 0] c) [0] =
  Ok (match c with
      | None => (env0_at [x; 0; 0; 0] (Some 0%nat), [],
                 ([x; 0; 0; 0], 1.0, true, []))
      | Some n => (env0_at [x; 0; 0; 0] (Some (n + 1)%nat),
                   (if Nat.eqb n 0 then [step_warning] else []),
                   ([x; 0; 0; 0], 0.0, true, []))
      end).
Proof.
  intros Hx.
  rewrite (_step_at_rest_outside (env0_at [x; 0; 0; 0] c) x);
    [destruct c; reflexivity | reflexivity | reflexivity | exact Hx].
Qed.

Lemma steps_env0_outside :
  steps (env0_at [10; 0; 0; 0] None) [[0]; [0]; [0]] =
  [ (env0_at [10; 0; 0; 0] (Some 0%nat), [], ([10; 0; 0; 0], 1.0, true, []));
    (env0_at [10; 0; 0; 0] (Some 1%nat), [step_warning],
     ([10; 0; 0; 0], 0.0, true, []));
    (env0_at [10; 0; 0; 0] (Some 2%nat), [],
     ([10; 0; 0; 0], 0.0, true, [])) ].
Proof.
  assert (H10 : 2.4 < 10) by lra.
  rewrite steps_cons, (_step_env0_outside 10 None H10); cbn [env_of fst].
  rewrite steps_cons, (_step_env0_outside 10 (Some 0%nat) H10);
    cbn [env_of fst Nat.add].
  rewrite steps_cons, (_step_env0_outside 10 (Some 1%nat) H10); cbn [env_of fst].
  reflexivity.
Qed.

Lemma C4_reward_sequencing_witness :
  steps_beyond_done (env0_at [10; 0; 0; 0] None) = None /\
  exists r,
    nth_error (steps (env0_at [10; 0; 0; 0] None) [[0]; [0]; [0]]) 1 = Some r /\
    done_of r = true /\
    let k := count_done
               (firstn 1 (steps (env0_at [10; 0; 0; 0] None) [[0]; [0]; [0]])) in
    reward_of r = (if Nat.eqb k 0 then 1.0 else 0.0) /\
    steps_beyond_done (env_of r) = Some k /\
    log_of r = (if Nat.eqb k 1 then [step_warning] else []) /\
    List.length (logged (steps (env0_at [10; 0; 0; 0] None) [[0]; [0]; [0]])) =
    (if Nat.leb 2
          (count_done (steps (env0_at [10; 0; 0; 0] None) [[0]; [0]; [0]]))
     then 1%nat else 0%nat).
Proof.
  split; [reflexivity|].
  exists (env0_at [10; 0; 0; 0] (Some 1%nat), [step_warning],
          ([10; 0; 0; 0], 0.0, true, [])).
  assert (Hnth :
    nth_error (steps (env0_at [10; 0; 0; 0] None) [[0]; [0]; [0]]) 1 =
    Some (env0_at [10; 0; 0; 0] (Some 1%nat), [step_warning],
          ([10; 0; 0; 0], 0.0, true, [])))
    by (rewrite steps_env0_outside; reflexivity).
  split; [exact Hnth | split; [reflexivity|]].
  exact (C4_reward_sequencing (env0_at [10; 0; 0; 0] None) [[0]; [0]; [0]] 1
           _ eq_refl Hnth eq_refl).
Defined.

(** ** C5: reset *)

(** C5.  After any sequence of step and reset calls on any object, [_reset]
    stores exactly the state (-5.0, 0.0, 0.3 * pi, 0.0), sets the
    termination counter to None and returns that state. *)
Theorem C5_reset_after_any_history (self : Env) (calls : list call) :
  let self' := fst (_reset (history self calls)) in
  let returned := snd (_reset (history self calls)) in
  state self' = Some [-5.0; 0.0; 0.3 * PI; 0.0] /\
  steps_beyond_done self' = None /\
  returned = [-5.0; 0.0; 0.3 * PI; 0.0].
Proof.
  generalize (history self calls); intros e.
  unfold _reset; cbn [fst snd state steps_beyond_done set_state
                        set_steps_beyond_done].
  repeat split.
Qed.

(** ** C9: the termination counter under step and reset *)

(** C9.  A returning step never sets the termination counter back to None:
    when the post-step state is not done the counter is unchanged and the
    reward is 1.0 (also when the counter is already set, the state having
    come back inside the bounds); when it is done the counter goes from None
    to 0 or from n to n + 1.  Reset sets it to None. *)
Theorem C9_counter_transitions (self : Env) (action : array) (r : step_return) :
  _step self action = Ok r ->
  (done_of r = false ->
   steps_beyond_done (env_of r) = steps_beyond_done self /\
   reward_of r = 1.0) /\
  (done_of r = true -> steps_beyond_done self = None ->
   steps_beyond_done (env_of r) = Some 0%nat) /\
  (done_of r = true -> forall n, steps_beyond_done self = Some n ->
   steps_beyond_done (env_of r) = Some (n + 1)%nat) /\
  (steps_beyond_done self <> None -> steps_beyond_done (env_of r) <> None) /\
  steps_beyond_done (fst (_reset self)) = None /\
  steps_beyond_done (fst (_reset (env_of r))) = None.
Proof.
  intros Hstep.
  destruct (_step_inv self action r Hstep)
    as (st & x & xd & th & td & _ & _ & _ & _ & _ & Hbr).
  destruct Hbr as [(Hd & Hrw & _ & ->)
                  | [(Hd & Hc & _ & _ & ->)
                    | (Hd & n & Hc & _ & _ & ->)]];
    cbn [steps_beyond_done set_state set_steps_beyond_done];
    repeat split; intros; try congruence.
Qed.

(** A step taken inside the bounds with the counter already at 3: reward 1.0
    again, the counter still 3. *)
Lemma _step_env0_inside (x : R) (c : option nat) :
  - 2.4 <= x <= 2.4 ->
  _step (env0_at [x; 0; 0; 0] c) [0] =
  Ok (env0_at [x; 0; 0; 0] c, [], ([x; 0; 0; 0], 1.0, false, [])).
Proof.
  intros Hx.
  rewrite (_step_at_rest_inside (env0_at [x; 0; 0; 0] c) x);
    [reflexivity | reflexivity | reflexivity
    | change (x_threshold (env0_at [x; 0; 0; 0] c)) with 2.4; lra
    | apply Rlt_le, theta_threshold_env0_pos].
Qed.

Lemma inside_1 : - 2.4 <= 1 <= 2.4.
Proof. lra. Qed.

Lemma C9_counter_transitions_witness :
  _step env_inside [0] = Ok ret_inside /\
  (done_of ret_inside = false ->
   steps_beyond_done (env_of ret_inside) = steps_beyond_done env_inside /\
   reward_of ret_inside = 1.0) /\
  (done_of ret_inside = true -> steps_beyond_done env_inside = None ->
   steps_beyond_done (env_of ret_inside) = Some 0%nat) /\
  (done_of ret_inside = true -> forall n,
   steps_beyond_done env_inside = Some n ->
   steps_beyond_done (env_of ret_inside) = Some (n + 1)%nat) /\
  (steps_beyond_done env_inside <> None ->
   steps_beyond_done (env_of ret_inside) <> None) /\
  steps_beyond_done (fst (_reset env_inside)) = None /\
  steps_beyond_done (fst (_reset (env_of ret_inside))) = None.
Proof.
  exact (conj (_step_env0_inside 1 (Some 3%nat) inside_1)
           (C9_counter_transitions env_inside [0] ret_inside
              (_step_env0_inside 1 (Some 3%nat) inside_1))).
Defined.

(** ** C10: what step and reset leave alone *)

(** C10.  A returning step and a reset leave every attribute set at
    construction as it was: gravity, masscart, masspole, total_mass, length,
    polemass_length, max_force, tau, b, I, F_t, theta_threshold_radians,
    x_threshold, action_space and observation_space (and the generator and
    the viewer); the object after the call is the object before it with the
    state and the termination counter written. *)
Theorem C10_frame (self : Env) (action : array) (r : step_return) :
  _step self action = Ok r ->
  (same_constants self (env_of r) /\
   np_random (env_of r) = np_random self /\
   viewer (env_of r) = viewer self /\
   only_state_and_counter_written self (env_of r)) /\
  (same_constants self (fst (_reset self)) /\
   np_random (fst (_reset self)) = np_random self /\
   viewer (fst (_reset self)) = viewer self /\
   only_state_and_counter_written self (fst (_reset self))).
Proof.
  intros Hstep.
  destruct (_step_inv self action r Hstep)
    as (st & x & xd & th & td & _ & _ & _ & _ & _ & Hbr).
  split.
  - destruct Hbr as [(_ & _ & _ & ->)
                    | [(_ & _ & _ & _ & ->)
                      | (_ & n & _ & _ & _ & ->)]];
      unfold same_constants, only_state_and_counter_written;
      destruct self; cbn; repeat split.
  - unfold same_constants, only_state_and_counter_written, _reset;
      destruct self; cbn; repeat split.
Qed.

Lemma outside_10 : 2.4 < 10.
Proof. lra. Qed.

Lemma C10_frame_witness :
  _step env_outside [0] = Ok ret_outside /\
  (same_constants env_outside (env_of ret_outside) /\
   np_random (env_of ret_outside) = np_random env_outside /\
   viewer (env_of ret_outside) = viewer env_outside /\
   only_state_and_counter_written env_outside (env_of ret_outside)) /\
  (same_constants env_outside (fst (_reset env_outside)) /\
   np_random (fst (_reset env_outside)) = np_random env_outside /\
   viewer (fst (_reset env_outside)) = viewer env_outside /\
   only_state_and_counter_written env_outside (fst (_reset env_outside))).
Proof.
  exact (conj (_step_env0_outside 10 None outside_10)
           (C10_frame env_outside [0] ret_outside
              (_step_env0_outside 10 None outside_10))).
Defined.

(** ** C6: the angle after a step *)

(** C6, as stated, fails: the wrap of [_state_eq] takes off one revolution
    only.  From the state (0, 0, 0, 4000) with action 0 and the constants of
    [__init__] the Euler update gives theta = 0.005 * 4000 = 20, the wrap
    returns 20 - 2 * pi, and that is above pi. *)
Lemma C6_counterexample :
  exists x' x_dot' theta' theta_dot',
    _state_eq env0 [0; 0; 0; 4000] [0] = Ok [x'; x_dot'; theta'; theta_dot'] /\
    theta' = 20 - 2 * PI /\
    ~ (- PI < theta' <= PI).
Proof.
  destruct (_state_eq_returns env0 0 0 0 4000 0 eq_refl) as (xd & td & Heq).
  change (tau env0) with 0.005 in Heq.
  revert Heq; decide_comparisons; intros Heq.
  eexists _, _, _, _; split; [exact Heq|].
  split; lra.
Qed.

(** The upper boundary itself is sent to the lower one: an Euler update that
    lands on pi is returned as -pi. *)
Example wrap_at_pi :
  exists x_dot' theta_dot',
    _state_eq env0 [0; 0; PI - 1; 200] [0] = Ok [0; x_dot'; - PI; theta_dot'].
Proof.
  destruct (_state_eq_returns env0 0 0 (PI - 1) 200 0 eq_refl)
    as (xd & td & Heq).
  change (tau env0) with 0.005 in Heq.
  revert Heq; decide_comparisons; intros Heq.
  exists xd, td; rewrite Heq.
  replace (0 + 0.005 * 0) with 0 by lra.
  replace (PI - 1 + 0.005 * 200 - 2 * PI) with (- PI) by lra.
  reflexivity.
Qed.

(** An input angle already beyond pi is not wrapped at all. *)
Example no_wrap_beyond_pi :
  exists x_dot' theta_dot',
    _state_eq env0 [0; 0; 10; 0] [0] = Ok [0; x_dot'; 10; theta_dot'].
Proof.
  destruct (_state_eq_returns env0 0 0 10 0 0 eq_refl) as (xd & td & Heq).
  change (tau env0) with 0.005 in Heq.
  revert Heq; decide_comparisons; intros Heq.
  exists xd, td; rewrite Heq.
  replace (0 + 0.005 * 0) with 0 by lra.
  replace (10 + 0.005 * 0) with 10 by lra.
  reflexivity.
Qed.

(** C6 (amended).  For every input state whose theta lies strictly inside
    (-pi, pi) and whose angle moves by at most one revolution in the step
    (-2 pi <= tau * theta_dot <= 2 pi), the Euler-updated angle not being
    exactly pi, and for every action, the theta component of the state
    produced by a step lies in the half-open interval (-pi, pi]. *)
Theorem C6_angle_wrapped (self : Env) (x x_dot theta theta_dot u : R) :
  compatible self ->
  - PI < theta < PI ->
  - (2 * PI) <= tau self * theta_dot <= 2 * PI ->
  theta + tau self * theta_dot <> PI ->
  exists x' x_dot' theta' theta_dot',
    _state_eq self [x; x_dot; theta; theta_dot] [u]
    = Ok [x'; x_dot'; theta'; theta_dot'] /\
    - PI < theta' <= PI.
Proof.
  intros HF Hth Hmove Hne.
  destruct (_state_eq_returns self x x_dot theta theta_dot u HF)
    as (xd & td & Heq).
  eexists _, _, _, _; split; [exact Heq|].
  assert (Hside : theta + tau self * theta_dot < PI
                  \/ PI < theta + tau self * theta_dot)
    by (destruct (Rtotal_order (theta + tau self * theta_dot) PI)
          as [?|[?|?]]; [left | contradiction | right]; assumption).
  unfold Rgtb, Rgeb, Rltb, Rleb.
  repeat match goal with
    | |- context [Rlt_dec ?p ?q] => destruct (Rlt_dec p q)
    | |- context [Rle_dec ?p ?q] => destruct (Rle_dec p q)
    end; cbn [andb]; destruct Hside; lra.
Qed.

Lemma C6_angle_wrapped_witness :
  compatible env0 /\
  - PI < 1 < PI /\
  - (2 * PI) <= tau env0 * 2 <= 2 * PI /\
  1 + tau env0 * 2 <> PI /\
  exists x' x_dot' theta' theta_dot',
    _state_eq env0 [0; 0; 1; 2] [0] = Ok [x'; x_dot'; theta'; theta_dot'] /\
    - PI < theta' <= PI.
Proof.
  assert (H1 : - PI < 1 < PI) by (pose proof PI2_3_2; lra).
  assert (H2 : - (2 * PI) <= tau env0 * 2 <= 2 * PI)
    by (change (tau env0) with 0.005; pose proof PI_RGT_0; lra).
  assert (H3 : 1 + tau env0 * 2 <> PI)
    by (change (tau env0) with 0.005; pose proof PI2_3_2; lra).
  exact (conj eq_refl (conj H1 (conj H2 (conj H3
           (C6_angle_wrapped env0 0 0 1 2 0 eq_refl H1 H2 H3))))).
Defined.

(** * Further properties of the code *)

(** ** The constructor *)

(** The matrix the constructor stores: each row of [G] with the matching
    entry of [H] appended. *)
Lemma init_inv (G : matrix) (H : array) (rng : RandomState) (e : Env) :
  __init__ G H rng = Ok e ->
  List.length H = 4%nat /\ List.length G = 4%nat /\
  e = set_F_t (set_np_random env0 rng)
        (map (fun p => fst p ++ snd p) (combine G (map (fun h => [h]) H))).
Proof.
  unfold __init__, reshape_4_1, concatenate_axis1, bind.
  destruct (Nat.eqb (List.length H) 4) eqn:HH; [|discriminate].
  rewrite length_map.
  destruct (Nat.eqb (List.length G) (List.length H)) eqn:HG; [|discriminate].
  apply Nat.eqb_eq in HH, HG.
  intros Hok; injection Hok as <-.
  repeat split; congruence.
Qed.


Lemma ncols_combine (G : matrix) :
  forall H : array,
    List.length G = List.length H ->
    ncols 5 (map (fun p => fst p ++ snd p) (combine G (map (fun h => [h]) H)))
    = ncols 4 G.
Proof.
  unfold ncols.
  induction G as [|g G IH]; intros [|h H] Hlen; try discriminate;
    [reflexivity|].
  cbn [map combine forallb fst snd].
  rewrite IH by (cbn in Hlen; lia).
  rewrite length_app; cbn [List.length].
  f_equal.
  destruct (Nat.eqb_spec (List.length g) 4), (Nat.eqb_spec (List.length g + 1) 5);
    try reflexivity; lia.
Qed.

(** X2.  An object built by the constructor can run the dynamics step on a
    four-entry state and a one-entry action exactly when every row of [G] has
    four entries. *)
Theorem init_compatible_iff (G : matrix) (H : array) (rng : RandomState)
  (e : Env) :
  __init__ G H rng = Ok e ->
  forall x x_dot theta theta_dot u,
    (exists s, _state_eq e [x; x_dot; theta; theta_dot] [u] = Ok s)
    <-> Forall (fun row => List.length row = 4%nat) G.
Proof.
  intros Hinit x x_dot theta theta_dot u.
  destruct (init_inv G H rng e Hinit) as (HH & HG & ->).
  unfold _state_eq, matmul; cbn [F_t set_F_t app List.length].
  rewrite ncols_combine by congruence.
  assert (Hn : ncols 4 G = true <-> Forall (fun row => List.length row = 4%nat) G).
  { unfold ncols; rewrite forallb_forall, Forall_forall.
    split; intros Hall row Hin; specialize (Hall row Hin);
      apply Nat.eqb_eq; exact Hall. }
  destruct (ncols 4 G); cbn [bind].
  - split; [intros _; apply Hn; reflexivity | intros _; eauto].
  - split; [intros (s & Hs); discriminate
           | intros HF; apply Hn in HF; discriminate].
Qed.

Lemma init_compatible_iff_witness :
  __init__ G0 H0 0%nat = Ok env0 /\
  forall x x_dot theta theta_dot u,
    (exists s, _state_eq env0 [x; x_dot; theta; theta_dot] [u] = Ok s)
    <-> Forall (fun row => List.length row = 4%nat) G0.
Proof.
  exact (conj init_env0 (init_compatible_iff G0 H0 0%nat env0 init_env0)).
Defined.

(** The constants the constructor sets. *)
Lemma init_constants (G : matrix) (H : array) (rng : RandomState) (e : Env) :
  __init__ G H rng = Ok e ->
  gravity e = 9.8 /\ masspole e = 0.1 /\ total_mass e = 0.1 + 0.5 /\
  length e = 0.3 /\ polemass_length e = 0.1 * 0.3 /\ tau e = 0.005 /\
  b e = 0.1 /\ I e = 0.012 /\ x_threshold e = 2.4 /\
  theta_threshold_radians e = 12 * 2 * PI / 360 /\
  observation_space e = observation_space env0.
Proof.
  intros Hinit.
  destruct (init_inv G H rng e Hinit) as (_ & _ & ->).
  repeat split.
Qed.

(** X3.  With the constants of the constructor no division of the dynamics step
    is by zero: the total mass and the pole mass are positive, and the
    denominator of the angular acceleration is at least 19/75 whatever the
    angle. *)
Theorem init_denominators_positive (G : matrix) (H : array) (rng : RandomState)
  (e : Env) :
  __init__ G H rng = Ok e ->
  0 < total_mass e /\ 0 < masspole e /\
  forall theta,
    19 / 75 <= I e / masspole e + length e
               - masspole e * cos theta ^ 2 / total_mass e.
Proof.
  intros Hinit.
  destruct (init_constants G H rng e Hinit)
    as (_ & -> & -> & -> & _ & _ & _ & -> & _).
  repeat split; try lra.
  intros theta.
  pose proof (COS_bound theta) as [Hl Hu].
  assert (Hsq : cos theta ^ 2 <= 1) by nra.
  lra.
Qed.

Lemma init_denominators_positive_witness :
  __init__ G0 H0 0%nat = Ok env0 /\
  0 < total_mass env0 /\ 0 < masspole env0 /\
  forall theta,
    19 / 75 <= I env0 / masspole env0 + length env0
               - masspole env0 * cos theta ^ 2 / total_mass env0.
Proof.
  exact (conj init_env0
           (init_denominators_positive G0 H0 0%nat env0 init_env0)).
Defined.

(** ** The dynamics step: when it returns and what it raises *)

(** X4.  [_state_eq] returns exactly when the transition matrix has as many
    columns as the state and the action have entries together, the state has
    four entries and the action is not empty; the result then has four
    entries.  A column mismatch or a state of another length raises
    [ValueError]; an empty action, these being right, raises [IndexError]. *)
Theorem _state_eq_returns_iff (self : Env) (st u : array) :
  ((exists s, _state_eq self st u = Ok s) <->
   (ncols (List.length (st ++ u)) (F_t self) = true /\
    List.length st = 4%nat /\ u <> [])) /\
  (forall s, _state_eq self st u = Ok s -> List.length s = 4%nat) /\
  (ncols (List.length (st ++ u)) (F_t self) = false ->
   _state_eq self st u = Raise ValueError) /\
  (List.length st <> 4%nat -> _state_eq self st u = Raise ValueError) /\
  (ncols (List.length (st ++ u)) (F_t self) = true ->
   List.length st = 4%nat -> u = [] ->
   _state_eq self st u = Raise IndexError).
Proof.
  unfold _state_eq, matmul.
  destruct (ncols (List.length (st ++ u)) (F_t self)) eqn:HF; cbn [bind].
  - destruct st as [|x [|x_dot [|theta [|theta_dot [|y st]]]]];
      try (repeat split; intros;
           repeat match goal with
             | H : exists _, _ |- _ => destruct H
             | H : _ /\ _ |- _ => destruct H
             end;
           try discriminate; try reflexivity; congruence).
    destruct u as [|u0 rest];
      repeat split; intros;
      repeat match goal with
        | H : exists _, _ |- _ => destruct H
        | H : _ /\ _ |- _ => destruct H
        end;
      try discriminate; try reflexivity; try congruence; eauto;
      try (exfalso; cbn [List.length] in *; congruence).
    match goal with H : Ok _ = Ok _ |- _ => injection H as <- end.
    reflexivity.
  - repeat split; intros;
      repeat match goal with
        | H : exists _, _ |- _ => destruct H
        | H : _ /\ _ |- _ => destruct H
        end;
      try discriminate; try reflexivity; congruence.
Qed.

(** X5.  Of the action only the first entry is read: two actions with the same
    first entry give the same result, the transition matrix of each run
    having the number of columns its action needs. *)
Theorem _state_eq_reads_first_action_entry
  (self : Env) (F F' : matrix) (st rest rest' : array) (u0 : R) :
  ncols (List.length (st ++ u0 :: rest)) F = true ->
  ncols (List.length (st ++ u0 :: rest')) F' = true ->
  _state_eq (set_F_t self F) st (u0 :: rest)
  = _state_eq (set_F_t self F') st (u0 :: rest').
Proof.
  intros HF HF'; unfold _state_eq; cbn [F_t set_F_t].
  rewrite !matmul_compatible by assumption.
  reflexivity.
Qed.

Lemma _state_eq_reads_first_action_entry_witness :
  ncols (List.length ([1; 2; 3; 4] ++ [5; 6])) [[0; 0; 0; 0; 0; 0]] = true /\
  ncols (List.length ([1; 2; 3; 4] ++ [5])) F_ones = true /\
  _state_eq (set_F_t env0 [[0; 0; 0; 0; 0; 0]]) [1; 2; 3; 4] [5; 6]
  = _state_eq (set_F_t env0 F_ones) [1; 2; 3; 4] [5].
Proof.
  exact (conj eq_refl (conj eq_refl
           (_state_eq_reads_first_action_entry env0 [[0; 0; 0; 0; 0; 0]] F_ones
              [1; 2; 3; 4] [6] [] 5 eq_refl eq_refl))).
Defined.

(** ** The dynamics step: symmetries *)

(** Split every comparison of the goal in two. *)
Ltac split_comparisons :=
  unfold Rgtb, Rgeb, Rltb, Rleb;
  repeat match goal with
    | |- context [Rlt_dec ?p ?q] => destruct (Rlt_dec p q)
    | |- context [Rle_dec ?p ?q] => destruct (Rle_dec p q)
    end;
  cbn [andb].

(** X6.  Mirror symmetry: the state and the action negated, the next state is
    the negated next state (and an exception stays the same exception). *)
Theorem _state_eq_mirror (self : Env) (st u : array) :
  _state_eq self (map Ropp st) (map Ropp u) =
  match _state_eq self st u with
  | Ok s => Ok (map Ropp s)
  | Raise e => Raise e
  end.
Proof.
  unfold _state_eq, matmul.
  rewrite !length_app, !length_map.
  destruct (ncols (List.length st + List.length u) (F_t self)); cbn [bind];
    [|reflexivity].
  destruct st as [|x [|x_dot [|theta [|theta_dot [|? ?]]]]]; try reflexivity.
  destruct u as [|u0 rest]; [reflexivity|].
  cbn [map]; rewrite sin_neg, cos_neg.
  pose proof PI_RGT_0.
  apply f_equal.
  f_equal; [unfold Rdiv; ring|].
  f_equal; [unfold Rdiv; ring|].
  f_equal; [|f_equal; unfold Rdiv; ring].
  split_comparisons; lra.
Qed.

(** X7.  Translation invariance: the dynamics do not depend on where the cart
    is.  Moving the start by [d] moves the next position by [d] and changes
    nothing else. *)
Theorem _state_eq_translation
  (self : Env) (x x_dot theta theta_dot d : R) (u : array)
  (x' x_dot' theta' theta_dot' : R) :
  _state_eq self [x; x_dot; theta; theta_dot] u
  = Ok [x'; x_dot'; theta'; theta_dot'] ->
  _state_eq self [x + d; x_dot; theta; theta_dot] u
  = Ok [x' + d; x_dot'; theta'; theta_dot'].
Proof.
  unfold _state_eq, matmul; cbn [app List.length].
  destruct (ncols _ (F_t self)); cbn [bind]; [|discriminate].
  destruct u as [|u0 rest]; [discriminate|].
  intros Heq; injection Heq as <- <- <- <-.
  do 2 f_equal; ring.
Qed.

Lemma _state_eq_translation_witness :
  _state_eq env0 [1; 0; 0; 0] [0] = Ok [1; 0; 0; 0] /\
  _state_eq env0 [1 + 2; 0; 0; 0] [0] = Ok [1 + 2; 0; 0; 0].
Proof.
  exact (conj (_state_eq_at_rest env0 1 eq_refl)
           (_state_eq_translation env0 1 0 0 0 2 [0] 1 0 0 0
              (_state_eq_at_rest env0 1 eq_refl))).
Defined.

(** ** The dynamics step: the angle *)

(** The angle of the next state, read off a returning call. *)
Lemma _state_eq_angle (self : Env) (x x_dot theta theta_dot : R) (u : array)
  (x' x_dot' theta' theta_dot' : R) :
  _state_eq self [x; x_dot; theta; theta_dot] u
  = Ok [x'; x_dot'; theta'; theta_dot'] ->
  theta' =
  (if Rltb theta PI && Rgeb (theta + tau self * theta_dot) PI
   then theta + tau self * theta_dot - 2 * PI
   else if Rgtb theta (- PI) && Rleb (theta + tau self * theta_dot) (- PI)
        then theta + tau self * theta_dot + 2 * PI
        else theta + tau self * theta_dot).
Proof.
  unfold _state_eq, matmul; cbn [app List.length].
  destruct (ncols _ (F_t self)); cbn [bind]; [|discriminate].
  destruct u as [|u0 rest]; [discriminate|].
  intros Heq; injection Heq as _ _ <- _; reflexivity.
Qed.

(** X8.  The wrap never changes the direction of the pole: the returned angle is
    the Euler-updated angle, or one revolution less or more, so its sine and
    cosine are those of the Euler-updated angle. *)
Theorem _state_eq_angle_same_direction
  (self : Env) (x x_dot theta theta_dot : R) (u : array)
  (x' x_dot' theta' theta_dot' : R) :
  _state_eq self [x; x_dot; theta; theta_dot] u
  = Ok [x'; x_dot'; theta'; theta_dot'] ->
  (theta' = theta + tau self * theta_dot \/
   theta' = theta + tau self * theta_dot - 2 * PI \/
   theta' = theta + tau self * theta_dot + 2 * PI) /\
  sin theta' = sin (theta + tau self * theta_dot) /\
  cos theta' = cos (theta + tau self * theta_dot).
Proof.
  intros Heq; rewrite (_state_eq_angle _ _ _ _ _ _ _ _ _ _ Heq).
  set (e := theta + tau self * theta_dot).
  destruct (Rltb theta PI && Rgeb e PI);
    [|destruct (Rgtb theta (- PI) && Rleb e (- PI))].
  - split; [auto|].
    rewrite sin_minus, cos_minus, sin_2PI, cos_2PI; split; ring.
  - split; [auto|].
    rewrite sin_plus, cos_plus, sin_2PI, cos_2PI; split; ring.
  - auto.
Qed.

Lemma _state_eq_angle_same_direction_witness :
  _state_eq env0 [1; 0; 0; 0] [0] = Ok [1; 0; 0; 0] /\
  (0 = 0 + tau env0 * 0 \/
   0 = 0 + tau env0 * 0 - 2 * PI \/
   0 = 0 + tau env0 * 0 + 2 * PI) /\
  sin 0 = sin (0 + tau env0 * 0) /\
  cos 0 = cos (0 + tau env0 * 0).
Proof.
  exact (conj (_state_eq_at_rest env0 1 eq_refl)
           (_state_eq_angle_same_direction env0 1 0 0 0 [0] 1 0 0 0
              (_state_eq_at_rest env0 1 eq_refl))).
Defined.

(** X9.  An Euler-updated angle strictly inside (-pi, pi) is returned as it is,
    whatever the angle before; and from an angle strictly inside (-pi, pi)
    that moves by at most one revolution, the returned angle is within the
    closed interval [-pi, pi]. *)
Theorem _state_eq_angle_range
  (self : Env) (x x_dot theta theta_dot : R) (u : array)
  (x' x_dot' theta' theta_dot' : R) :
  _state_eq self [x; x_dot; theta; theta_dot] u
  = Ok [x'; x_dot'; theta'; theta_dot'] ->
  (- PI < theta + tau self * theta_dot < PI ->
   theta' = theta + tau self * theta_dot) /\
  (- PI < theta < PI ->
   - (2 * PI) <= tau self * theta_dot <= 2 * PI ->
   - PI <= theta' <= PI).
Proof.
  intros Heq; rewrite (_state_eq_angle _ _ _ _ _ _ _ _ _ _ Heq).
  pose proof PI_RGT_0.
  split; intros; split_comparisons; lra.
Qed.

Lemma _state_eq_angle_range_witness :
  _state_eq env0 [1; 0; 0; 0] [0] = Ok [1; 0; 0; 0] /\
  (- PI < 0 + tau env0 * 0 < PI -> 0 = 0 + tau env0 * 0) /\
  (- PI < 0 < PI -> - (2 * PI) <= tau env0 * 0 <= 2 * PI ->
   - PI <= 0 <= PI).
Proof.
  exact (conj (_state_eq_at_rest env0 1 eq_refl)
           (_state_eq_angle_range env0 1 0 0 0 [0] 1 0 0 0
              (_state_eq_at_rest env0 1 eq_refl))).
Defined.

(** ** The dynamics step: equilibria and the sign of the action *)



(** X11.  The sign of the action, with the constants of the constructor: from
    rest with the pole upright, an action [u] leaves the position and the
    angle where they are for this step, gives the cart the velocity
    -(91/9120) u and the pole the angular velocity (5/152) u.  A positive
    action pushes the cart towards negative x. *)
Theorem _state_eq_push_from_rest
  (G : matrix) (H : array) (rng : RandomState) (e : Env) (x u : R) :
  __init__ G H rng = Ok e ->
  compatible e ->
  _state_eq e [x; 0; 0; 0] [u] = Ok [x; - (91 / 9120) * u; 0; 5 / 152 * u].
Proof.
  intros Hinit HF.
  destruct (init_constants G H rng e Hinit)
    as (Hg & Hmp & Htm & Hlen & Hpml & Htau & Hb & HI & _).
  unfold _state_eq.
  rewrite matmul_compatible by exact HF.
  cbn [bind]; rewrite sin_0, cos_0.
  rewrite Hg, Hmp, Htm, Hlen, Hpml, Htau, Hb, HI.
  replace (0 + 0.005 * 0) with 0 by lra.
  decide_comparisons.
  apply f_equal; repeat (f_equal; try lra); field.
Qed.

Lemma _state_eq_push_from_rest_witness :
  __init__ G0 H0 0%nat = Ok env0 /\ compatible env0 /\
  _state_eq env0 [1; 0; 0; 0] [2]
  = Ok [1; - (91 / 9120) * 2; 0; 5 / 152 * 2].
Proof.
  exact (conj init_env0 (conj eq_refl
           (_state_eq_push_from_rest G0 H0 0%nat env0 1 2 init_env0 eq_refl))).
Defined.

(** ** The controller and reset *)

(** X12.  The first step after a reset is always done: reset puts the cart at
    x = -5, beyond every position threshold below 5 (the constructor's is
    2.4), and the step does not move it since the velocity is 0.  Whatever
    the action, that step returns done = True with reward 1.0, sets the
    counter to 0 and logs nothing. *)
Theorem _step_after_reset_done (self : Env) (u : R) :
  compatible self ->
  x_threshold self < 5 ->
  exists r,
    _step (fst (_reset self)) [u] = Ok r /\
    nth 0 (state_of r) 0 = -5.0 /\
    done_of r = true /\ reward_of r = 1.0 /\
    steps_beyond_done (env_of r) = Some 0%nat /\ log_of r = [].
Proof.
  intros HF Hx.
  set (e := fst (_reset self)).
  assert (HFe : compatible e) by exact HF.
  destruct (_step_post e (-5.0) 0.0 (0.3 * PI) 0.0 u HFe eq_refl)
    as (r & x' & xd' & th' & td' & Hr & Heq & Hs & _ & Hd & _).
  destruct (_state_eq_returns e (-5.0) 0.0 (0.3 * PI) 0.0 u HFe)
    as (xd & td & Heq').
  rewrite Heq' in Heq; injection Heq as Hx' _ _ _.
  assert (Hdone : done_of r = true).
  { apply Hd; left. change (x_threshold e) with (x_threshold self). lra. }
  exists r; split; [exact Hr|].
  split; [rewrite Hs; cbn [nth]; lra|].
  split; [exact Hdone|].
  destruct (_step_inv e [u] r Hr)
    as (st & y & yd & t & td1 & _ & _ & _ & _ & _ & Hbr).
  destruct Hbr as [(Hnd & _) | [(_ & _ & Hrw & Hlog & ->)
                                | (_ & n & Hc & _)]].
  - congruence.
  - repeat split; assumption.
  - discriminate.
Qed.

Lemma _step_after_reset_done_witness :
  compatible env0 /\ x_threshold env0 < 5 /\
  exists r,
    _step (fst (_reset env0)) [3] = Ok r /\
    nth 0 (state_of r) 0 = -5.0 /\
    done_of r = true /\ reward_of r = 1.0 /\
    steps_beyond_done (env_of r) = Some 0%nat /\ log_of r = [].
Proof.
  assert (Hx : x_threshold env0 < 5)
    by (change (x_threshold env0) with 2.4; lra).
  exact (conj eq_refl (conj Hx (_step_after_reset_done env0 3 eq_refl Hx))).
Defined.

(** X13.  The state reset returns is outside the observation space the
    constructor declares: its position is below the lower bound -4.8 and its
    angle 0.3 pi above the upper bound of 24 degrees. *)
Theorem reset_outside_observation_space
  (G : matrix) (H : array) (rng : RandomState) (e : Env) :
  __init__ G H rng = Ok e ->
  nth 0 (snd (_reset e)) 0 < nth 0 (low (observation_space e)) 0 /\
  nth 2 (high (observation_space e)) 0 < nth 2 (snd (_reset e)) 0.
Proof.
  intros Hinit.
  destruct (init_constants G H rng e Hinit)
    as (_ & _ & _ & _ & _ & _ & _ & _ & _ & _ & ->).
  pose proof PI_RGT_0.
  split; cbn [_reset snd state set_state set_steps_beyond_done nth
                observation_space env0 low high]; lra.
Qed.

Lemma reset_outside_observation_space_witness :
  __init__ G0 H0 0%nat = Ok env0 /\
  nth 0 (snd (_reset env0)) 0 < nth 0 (low (observation_space env0)) 0 /\
  nth 2 (high (observation_space env0)) 0 < nth 2 (snd (_reset env0)) 0.
Proof.
  exact (conj init_env0
           (reset_outside_observation_space G0 H0 0%nat env0 init_env0)).
Defined.

(** X14.  The reward of a returning step is 0.0 or 1.0, and it is 0.0 exactly when
    the step is done and the termination counter was already set. *)
Theorem _step_reward_zero_iff (self : Env) (action : array) (r : step_return) :
  _step self action = Ok r ->
  (reward_of r = 0.0 \/ reward_of r = 1.0) /\
  (reward_of r = 0.0 <->
   done_of r = true /\ steps_beyond_done self <> None).
Proof.
  intros Hstep.
  destruct (_step_inv self action r Hstep)
    as (st & x & xd & th & td & _ & _ & _ & _ & _ & Hbr).
  destruct Hbr as [(Hd & Hrw & _) | [(Hd & Hc & Hrw & _)
                                    | (Hd & n & Hc & Hrw & _)]];
    rewrite Hrw; (split; [auto|]); split.
  - intros; lra.
  - intros [? _]; congruence.
  - intros; lra.
  - intros [_ ?]; congruence.
  - intros _; split; congruence.
  - reflexivity.
Qed.

Lemma _step_reward_zero_iff_witness :
  _step env_inside [0] = Ok ret_inside /\
  (reward_of ret_inside = 0.0 \/ reward_of ret_inside = 1.0) /\
  (reward_of ret_inside = 0.0 <->
   done_of ret_inside = true /\ steps_beyond_done env_inside <> None).
Proof.
  exact (conj (_step_env0_inside 1 (Some 3%nat) inside_1)
           (_step_reward_zero_iff env_inside [0] ret_inside
              (_step_env0_inside 1 (Some 3%nat) inside_1))).
Defined.

(** ** Sequences of calls *)

Lemma written_refl (e : Env) : only_state_and_counter_written e e.
Proof. destruct e; reflexivity. Qed.

Lemma written_trans (e1 e2 e3 : Env) :
  only_state_and_counter_written e1 e2 ->
  only_state_and_counter_written e2 e3 ->
  only_state_and_counter_written e1 e3.
Proof.
  unfold only_state_and_counter_written; intros H12 H23.
  rewrite H23 at 1; rewrite H12 at 1.
  destruct e1; reflexivity.
Qed.

Lemma perform_written (self : Env) (c : call) :
  only_state_and_counter_written self (perform self c).
Proof.
  destruct c as [action|]; cbn [perform].
  - destruct (_step self action) as [[[self' log] ret]|] eqn:Hstep;
      [|apply written_refl].
    destruct (_step_inv self action _ Hstep)
      as (st & x & xd & th & td & _ & _ & _ & _ & _ & Hbr).
    cbn [env_of fst] in Hbr.
    destruct Hbr as [(_ & _ & _ & ->)
                    | [(_ & _ & _ & _ & ->) | (_ & n & _ & _ & _ & ->)]];
      destruct self; reflexivity.
  - destruct self; reflexivity.
Qed.

Lemma history_written (calls : list call) :
  forall self : Env, only_state_and_counter_written self (history self calls).
Proof.
  unfold history.
  induction calls as [|c calls IH]; intros self; cbn [fold_left].
  - apply written_refl.
  - eapply written_trans; [apply perform_written | apply IH].
Qed.

(** X15.  No sequence of step and reset calls changes anything set at
    construction: the constants, the transition matrix, the thresholds and
    the two spaces, the generator and the viewer are those of the start. *)
Theorem history_frame (self : Env) (calls : list call) :
  same_constants self (history self calls) /\
  np_random (history self calls) = np_random self /\
  viewer (history self calls) = viewer self.
Proof.
  pose proof (history_written calls self) as Hw.
  unfold only_state_and_counter_written in Hw; rewrite Hw.
  unfold same_constants; destruct self; cbn; repeat split.
Qed.

(** X16.  Reset forgets the past: the object after a reset, and the state it
    returns, are the same after any sequence of step and reset calls as
    after none. *)
Theorem reset_forgets_history (self : Env) (calls : list call) :
  _reset (history self calls) = _reset self.
Proof.
  pose proof (history_written calls self) as Hw.
  unfold only_state_and_counter_written in Hw; rewrite Hw.
  destruct self; reflexivity.
Qed.

Lemma perform_state_shape (self : Env) (c : call) :
  state_shape self -> state_shape (perform self c).
Proof.
  intros Hs; destruct c as [action|]; cbn [perform]; [|reflexivity].
  destruct (_step self action) as [[[self' log] ret]|] eqn:Hstep; [|exact Hs].
  pose proof (state_of_env_of self action _ Hstep) as Hkept.
  destruct (_step_inv self action _ Hstep)
    as (st & x & xd & th & td & _ & _ & Hst & _).
  cbn [env_of state_of fst snd] in *.
  unfold state_shape; rewrite Hkept, Hst; reflexivity.
Qed.

(** X17.  The stored state, unset or of four entries at the start, is unset or of
    four entries after every sequence of step and reset calls; so the
    unpacking of [self.state] in [_step] never fails. *)
Theorem history_state_shape (self : Env) (calls : list call) :
  state_shape self -> state_shape (history self calls).
Proof.
  unfold history; revert self.
  induction calls as [|c calls IH]; intros self Hs; cbn [fold_left].
  - exact Hs.
  - apply IH, perform_state_shape, Hs.
Qed.

Lemma history_state_shape_witness :
  state_shape env0 /\
  state_shape (history env0 [step [0]; reset; step [1]; step [2]]).
Proof.
  exact (conj Logic.I
           (history_state_shape env0 [step [0]; reset; step [1]; step [2]]
              Logic.I)).
Defined.

(** X18.  Before the first reset the object has no state: every step raises
    [ValueError], whatever the action, and any number of attempted steps
    leaves the object exactly as it was. *)
Theorem step_before_reset_raises (self : Env) (actions : list array) :
  state self = None ->
  (forall action, _step self action = Raise ValueError) /\
  history self (map step actions) = self.
Proof.
  intros Hnone.
  assert (Hraise : forall action, _step self action = Raise ValueError)
    by (intros action; unfold _step; rewrite Hnone; reflexivity).
  split; [exact Hraise|].
  unfold history.
  induction actions as [|action rest IH]; cbn [map fold_left perform].
  - reflexivity.
  - rewrite Hraise; exact IH.
Qed.

Lemma step_before_reset_raises_witness :
  state env0 = None /\
  (forall action, _step env0 action = Raise ValueError) /\
  history env0 (map step [[0]; [1]]) = env0.
Proof.
  exact (conj eq_refl (step_before_reset_raises env0 [[0]; [1]] eq_refl)).
Defined.

Lemma _step_keeps_ready (self : Env) (action : array) (r : step_return) :
  compatible self ->
  _step self action = Ok r ->
  compatible (env_of r) /\
  exists x x_dot theta theta_dot,
    state (env_of r) = Some [x; x_dot; theta; theta_dot].
Proof.
  intros HF Hstep.
  pose proof (state_of_env_of self action r Hstep) as Hkept.
  destruct (_step_inv self action r Hstep)
    as (st & x & xd & th & td & _ & _ & Hst & _ & _ & Hbr).
  split.
  - destruct Hbr as [(_ & _ & _ & ->)
                    | [(_ & _ & _ & _ & ->) | (_ & n & _ & _ & _ & ->)]];
      exact HF.
  - exists x, xd, th, td; rewrite Hkept, Hst; reflexivity.
Qed.

(** X19.  Once reset, an episode never raises: with a transition matrix of five
    columns, after a reset, any number of steps with one-entry actions all
    return. *)
Theorem steps_after_reset_all_return (self : Env) (us : list R) :
  compatible self ->
  List.length (steps (fst (_reset self)) (map (fun u => [u]) us))
  = List.length us.
Proof.
  intros HF.
  assert (Hready : compatible (fst (_reset self)) /\
                   exists x x_dot theta theta_dot,
                     state (fst (_reset self))
                     = Some [x; x_dot; theta; theta_dot])
    by (split; [exact HF | cbn; eauto]).
  generalize dependent (fst (_reset self)); clear self HF.
  induction us as [|u us IH]; intros e (HF & x & xd & th & td & Hst);
    [reflexivity|].
  cbn [map]; rewrite steps_cons.
  destruct (_step_returns e x xd th td u HF Hst) as (r & Hr).
  rewrite Hr; cbn [List.length]; f_equal.
  apply IH, (_step_keeps_ready e [u] r HF Hr).
Qed.

Lemma steps_after_reset_all_return_witness :
  compatible env0 /\
  List.length (steps (fst (_reset env0)) (map (fun u => [u]) [1; 2; 3]))
  = List.length [1; 2; 3].
Proof.
  exact (conj eq_refl (steps_after_reset_all_return env0 [1; 2; 3] eq_refl)).
Defined.

(** ** Seeding and rendering do not touch the dynamics *)

Lemma _step_generator_viewer (self : Env) (g : RandomState)
  (v : option Viewer) (action : array) :
  _step (set_viewer (set_np_random self g) v) action =
  match _step self action with
  | Ok (self', log, ret) => Ok (set_viewer (set_np_random self' g) v, log, ret)
  | Raise e => Raise e
  end.
Proof.
  unfold _step; cbn [state set_viewer set_np_random].
  destruct (state self) as [st|]; [|reflexivity].
  change (_state_eq (set_viewer (set_np_random self g) v) st action)
    with (_state_eq self st action).
  destruct (_state_eq self st action) as [new|e]; [|reflexivity].
  cbn [bind].
  destruct new as [|x [|x_dot [|theta [|theta_dot [|? ?]]]]]; try reflexivity.
  cbn [x_threshold theta_threshold_radians steps_beyond_done set_state
         set_viewer set_np_random].
  destruct (negb _); [reflexivity|].
  destruct (steps_beyond_done self); reflexivity.
Qed.

Lemma perform_generator_viewer (e1 e2 : Env) (c : call) :
  same_but_generator_and_viewer e1 e2 ->
  same_but_generator_and_viewer (perform e1 c) (perform e2 c).
Proof.
  unfold same_but_generator_and_viewer; intros ->.
  destruct c as [action|]; cbn [perform].
  - rewrite _step_generator_viewer.
    destruct (_step e2 action) as [[[self' log] ret]|]; reflexivity.
  - reflexivity.
Qed.

Lemma _seed_generator_viewer
  (seeding_np_random : option nat -> RandomState * nat)
  (e1 e2 : Env) (seed : option nat) :
  same_but_generator_and_viewer e1 e2 ->
  same_but_generator_and_viewer (fst (_seed seeding_np_random e1 seed)) e2.
Proof.
  unfold same_but_generator_and_viewer, _seed; intros ->.
  destruct (seeding_np_random seed) as [g s]; reflexivity.
Qed.

Lemma _render_writes_viewer (fresh : Viewer) (self : Env) (mode : string)
  (close : bool) :
  exists v, fst (fst (_render fresh self mode close)) = set_viewer self v.
Proof.
  assert (Hself : self = set_viewer self (viewer self))
    by (destruct self; reflexivity).
  unfold _render.
  destruct close.
  - destruct (viewer self) eqn:Hv; cbn [fst]; eauto.
  - destruct (viewer self) eqn:Hv; cbn [fst snd state set_viewer].
    + eexists (Some _).
      destruct (state self) as [x|]; [|exact Hself].
      destruct (nth_error x 0); [|exact Hself].
      destruct (nth_error x 2); exact Hself.
    + exists (Some fresh).
      destruct (state self) as [x|]; [|reflexivity].
      destruct (nth_error x 0); [|reflexivity].
      destruct (nth_error x 2); reflexivity.
Qed.

Lemma _render_generator_viewer (fresh : Viewer) (e1 e2 : Env) (mode : string)
  (close : bool) :
  same_but_generator_and_viewer e1 e2 ->
  same_but_generator_and_viewer (fst (fst (_render fresh e1 mode close))) e2.
Proof.
  unfold same_but_generator_and_viewer; intros H1.
  destruct (_render_writes_viewer fresh e1 mode close) as (v & ->).
  rewrite H1; reflexivity.
Qed.

Lemma api_history_generator_viewer
  (seeding_np_random : option nat -> RandomState * nat) (fresh : Viewer)
  (calls : list api_call) :
  forall e1 e2 : Env,
    same_but_generator_and_viewer e1 e2 ->
    same_but_generator_and_viewer
      (api_history seeding_np_random fresh e1 calls)
      (history e2 (dynamics_calls calls)).
Proof.
  unfold api_history, history.
  induction calls as [|c calls IH]; intros e1 e2 H0;
    cbn [fold_left dynamics_calls]; [exact H0|].
  destruct c as [action| |seed|mode close];
    cbn [fold_left api_perform]; apply IH.
  - apply (perform_generator_viewer e1 e2 (step action) H0).
  - apply (perform_generator_viewer e1 e2 reset H0).
  - apply _seed_generator_viewer, H0.
  - apply _render_generator_viewer, H0.
Qed.

(** X20.  Seeding and rendering never influence the trajectory: after any
    sequence of step, reset, seed and render calls, the stored state and the
    termination counter are those reached by the step and reset calls of the
    sequence alone, and the constants are those of the start. *)
Theorem seed_and_render_leave_trajectory
  (seeding_np_random : option nat -> RandomState * nat) (fresh : Viewer)
  (self : Env) (calls : list api_call) :
  state (api_history seeding_np_random fresh self calls)
  = state (history self (dynamics_calls calls)) /\
  steps_beyond_done (api_history seeding_np_random fresh self calls)
  = steps_beyond_done (history self (dynamics_calls calls)) /\
  same_constants self (api_history seeding_np_random fresh self calls).
Proof.
  assert (H0 : same_but_generator_and_viewer self self)
    by (unfold same_but_generator_and_viewer; destruct self; reflexivity).
  pose proof (api_history_generator_viewer seeding_np_random fresh calls
                self self H0) as Hrel.
  pose proof (history_written (dynamics_calls calls) self) as Hw.
  unfold same_but_generator_and_viewer in Hrel.
  unfold only_state_and_counter_written in Hw.
  split; [rewrite Hrel; reflexivity|].
  split; [rewrite Hrel; reflexivity|].
  unfold same_constants; rewrite Hrel.
  cbn [gravity masscart masspole total_mass length polemass_length max_force
         tau b I F_t theta_threshold_radians x_threshold action_space
         observation_space set_viewer set_np_random].
  rewrite Hw.
  destruct self; cbn; repeat split.
Qed.

(** ** Rendering *)

(** X21.  Where the cart is drawn.  With a stored four-entry state and a positive
    position threshold, a non-closing render moves the cart transform to the
    pixel 600 + 200 x / x_threshold at height 100, turns the pole transform
    by -theta and asks the viewer to render, in this order and after the
    calls that make the viewer if there was none; it returns what the viewer
    returns.  The pixel is on the 1200 pixel wide screen exactly when x is
    within three times the threshold. *)
Theorem _render_cart_position
  (fresh : Viewer) (self : Env) (mode : string) (x x_dot theta theta_dot : R) :
  state self = Some [x; x_dot; theta; theta_dot] ->
  0 < x_threshold self ->
  (exists made,
     snd (fst (_render fresh self mode false)) =
     made ++ [set_translation carttrans (600 + 200 * x / x_threshold self) 100;
              set_rotation poletrans (- theta);
              Viewer_render (String.eqb mode "rgb_array")] /\
     (viewer self <> None -> made = [])) /\
  snd (_render fresh self mode false)
  = Ok (returns_viewer_render (String.eqb mode "rgb_array")) /\
  (0 <= 600 + 200 * x / x_threshold self <= 1200 <->
   - (3 * x_threshold self) <= x <= 3 * x_threshold self).
Proof.
  intros Hst Ht.
  assert (Hcartx : x * (1200 / (x_threshold self * 2) / 3) + 1200 / 2.0
                   = 600 + 200 * x / x_threshold self).
  { replace (1200 / 2.0) with 600 by lra. field; lra. }
  split; [|split].
  - unfold _render.
    destruct (viewer self) as [v|] eqn:Hv;
      cbn [fst snd state set_viewer x_threshold]; rewrite Hst;
      cbn [nth_error fst snd]; rewrite Hcartx;
      eexists; (split; [reflexivity|]); [reflexivity | congruence].
  - unfold _render.
    destruct (viewer self) as [v|];
      cbn [fst snd state set_viewer]; rewrite Hst; reflexivity.
  - set (t := x_threshold self) in *.
    assert (Hy : x = x / t * t) by (field; lra).
    replace (200 * x / t) with (200 * (x / t)) by (field; lra).
    set (y := x / t) in *.
    split; intros [Hlo Hhi]; [rewrite Hy | rewrite Hy in Hlo, Hhi];
      split; nra.
Qed.

Lemma _render_cart_position_witness :
  state (env0_at [1; 0; 0; 0] None) = Some [1; 0; 0; 0] /\
  0 < x_threshold (env0_at [1; 0; 0; 0] None) /\
  (exists made,
     snd (fst (_render 7%nat (env0_at [1; 0; 0; 0] None) "human" false)) =
     made ++ [set_translation carttrans
                (600 + 200 * 1 / x_threshold (env0_at [1; 0; 0; 0] None)) 100;
              set_rotation poletrans (- 0);
              Viewer_render (String.eqb "human" "rgb_array")] /\
     (viewer (env0_at [1; 0; 0; 0] None) <> None -> made = [])) /\
  snd (_render 7%nat (env0_at [1; 0; 0; 0] None) "human" false)
  = Ok (returns_viewer_render (String.eqb "human" "rgb_array")) /\
  (0 <= 600 + 200 * 1 / x_threshold (env0_at [1; 0; 0; 0] None) <= 1200 <->
   - (3 * x_threshold (env0_at [1; 0; 0; 0] None)) <= 1
   <= 3 * x_threshold (env0_at [1; 0; 0; 0] None)).
Proof.
  assert (Ht : 0 < x_threshold (env0_at [1; 0; 0; 0] None))
    by (change (x_threshold (env0_at [1; 0; 0; 0] None)) with 2.4; lra).
  exact (conj eq_refl (conj Ht
           (_render_cart_position 7%nat (env0_at [1; 0; 0; 0] None) "human"
              1 0 0 0 eq_refl Ht))).
Defined.

Lemma _render_open_env (fresh : Viewer) (self : Env) (mode : string) :
  fst (fst (_render fresh self mode false)) =
  match viewer self with
  | Some _ => self
  | None => set_viewer self (Some fresh)
  end.
Proof.
  unfold _render.
  destruct (viewer self) as [v|]; cbn [fst snd state set_viewer];
    destruct (state self) as [x|]; try reflexivity;
    destruct (nth_error x 0) as [x0|]; try reflexivity;
    destruct (nth_error x 2) as [x2|]; reflexivity.
Qed.

Lemma _render_open_builds (fresh : Viewer) (self : Env) (mode : string) :
  match viewer self with
  | Some _ => filter builds_scene (snd (fst (_render fresh self mode false))) = []
  | None =>
      exists rest,
        filter builds_scene (snd (fst (_render fresh self mode false)))
        = Viewer_init fresh 1200 400 :: rest /\
        List.length rest = 6%nat /\
        List.length (filter (fun c => match c with add_geom _ => true
                                               | _ => false end) rest)
        = 4%nat
  end.
Proof.
  unfold _render.
  destruct (viewer self) as [v|]; cbn [fst snd state set_viewer];
    destruct (state self) as [x|];
    try (destruct (nth_error x 0) as [x0|]);
    try (destruct (nth_error x 2) as [x2|]);
    cbn [fst snd app filter builds_scene];
    try reflexivity;
    (eexists; split; [reflexivity | split; reflexivity]).
Qed.

(** X22.  The viewer is made once.  A non-closing render leaves a viewer on the
    object: the one it had, and then it builds nothing, or a new one made
    with a 1200 x 400 screen, two transforms and four geometries (cart, pole,
    axle, track).  A second non-closing render keeps that viewer and builds
    nothing again. *)
Theorem _render_makes_viewer_once
  (fresh fresh' : Viewer) (self : Env) (mode mode' : string) :
  let first := _render fresh self mode false in
  let second := _render fresh' (fst (fst first)) mode' false in
  viewer (fst (fst first))
  = Some (match viewer self with Some v => v | None => fresh end) /\
  (viewer self = None ->
   exists rest,
     filter builds_scene (snd (fst first)) = Viewer_init fresh 1200 400 :: rest /\
     List.length rest = 6%nat /\
     List.length (filter (fun c => match c with add_geom _ => true
                                            | _ => false end) rest)
     = 4%nat) /\
  (viewer self <> None -> filter builds_scene (snd (fst first)) = []) /\
  fst (fst second) = fst (fst first) /\
  filter builds_scene (snd (fst second)) = [].
Proof.
  intros first second; subst first second.
  pose proof (_render_open_builds fresh self mode) as Hb.
  pose proof (_render_open_builds fresh'
                (fst (fst (_render fresh self mode false))) mode') as Hb'.
  rewrite (_render_open_env fresh'), (_render_open_env fresh self mode) in *.
  destruct (viewer self) as [v|] eqn:Hv.
  - rewrite Hv in *.
    repeat split; auto; intros; congruence.
  - cbn [viewer set_viewer] in *.
    repeat split; auto; intros; congruence.
Qed.

